(** * fetchVideo.js: the retrying request helper of the video-download client

    A shallow embedding of [src/services/fetchVideo.js]: the error classes,
    the URL validator (its regular expression included), the retry loop of
    [makeApiRequest], and the two exported functions [fetchVideoInfo] and
    [downloadVideo].

    The asynchronous code is sequential (every promise is awaited at once),
    so an invocation is a function of the platform's behaviour: what the
    network answers to the k-th [fetch], and whether the caller's abort
    signal is already raised when that [fetch] is issued.  What the code does
    to the outside (requests sent, warnings logged, timers awaited) is
    returned as a list of events next to the settlement of the promise. *)

From Stdlib Require Import ZArith NArith List String Ascii Bool Lia.
From Stdlib Require Import Floats.SpecFloat.
From Stdlib Require Import DecimalString.
Import ListNotations.

Set Warnings "-register-all".

Local Open Scope string_scope.
Local Open Scope Z_scope.
Local Open Scope list_scope.

(* ------------------------------------------------------------------------- *)
(** ** The JavaScript side: strings, values, errors, the platform *)

Module Js.

(** A JavaScript string is a sequence of UTF-16 code units. *)
Definition char16 := N.
Definition jsString := list char16.

(** String literals of the source, all of them ASCII. *)
Fixpoint lit (s : string) : jsString :=
  match s with
  | EmptyString => []
  | String a rest => N_of_ascii a :: lit rest
  end.

(** LineTerminator of the language: LF, CR, LS (U+2028), PS (U+2029). *)
Definition isLineTerminator (c : char16) : bool :=
  (c =? 10)%N || (c =? 13)%N || (c =? 8232)%N || (c =? 8233)%N.


(** *** Values, errors and the platform *)

(** What [JSON.parse] (hence [response.json()]) can produce.  An object is
    its own properties in insertion order; numbers are IEEE doubles. *)
Inductive jsValue : Type :=
| JNull
| JBool (b : bool)
| JNumber (x : spec_float)
| JString (s : string)
| JArray (items : list jsValue)
| JObject (fields : list (string * jsValue)).

(** ToBoolean. *)
Definition truthy (v : jsValue) : bool :=
  match v with
  | JNull => false
  | JBool b => b
  | JNumber (S754_zero _) => false
  | JNumber S754_nan => false
  | JNumber _ => true
  | JString s => negb (String.eqb s "")
  | JArray _ => true
  | JObject _ => true
  end.

(** ToBoolean on what a property read gives, [undefined] being [None]. *)
Definition truthyOpt (v : option jsValue) : bool :=
  match v with
  | None => false
  | Some x => truthy x
  end.

Fixpoint lookupField (key : string) (fields : list (string * jsValue))
  : option jsValue :=
  match fields with
  | [] => None
  | (k, v) :: rest => if String.eqb k key then Some v else lookupField key rest
  end.

(** [v.key] for the three keys the source reads ([message], [title],
    [formats]), on a value that is neither [null] nor [undefined]: an own
    property of a parsed object; none of the three is inherited from a
    prototype, so every other value answers [undefined]. *)
Definition getProp (v : jsValue) (key : string) : option jsValue :=
  match v with
  | JObject fields => lookupField key fields
  | _ => None
  end.

(** [v?.key] *)
Definition optChain (v : jsValue) (key : string) : option jsValue :=
  match v with
  | JNull => None
  | _ => getProp v key
  end.

(** [a || b] with [b] a value. *)
Definition orElse (a : option jsValue) (b : jsValue) : jsValue :=
  match a with
  | Some x => if truthy x then x else b
  | None => b
  end.

(** *** Number::toString

    The string of a double, radix 10: the shortest decimal that reads back
    as the double, the closest one when there are several, laid out as the
    language prescribes.  A number is taken as [JSON.parse] gives it, a
    binary64 value [m * 2^e]. *)

(** [c1 * 2^a1 * 10^b1] against [c2 * 2^a2 * 10^b2], exactly. *)
Definition compareScaled (c1 a1 b1 c2 a2 b2 : Z) : comparison :=
  let a := Z.min a1 a2 in
  let b := Z.min b1 b2 in
  (c1 * 2 ^ (a1 - a) * 10 ^ (b1 - b) ?= c2 * 2 ^ (a2 - a) * 10 ^ (b2 - b)).

Definition ltScaled (c1 a1 b1 c2 a2 b2 : Z) : bool :=
  match compareScaled c1 a1 b1 c2 a2 b2 with Lt => true | _ => false end.

Definition leScaled (c1 a1 b1 c2 a2 b2 : Z) : bool :=
  match compareScaled c1 a1 b1 c2 a2 b2 with Gt => false | _ => true end.

(** The binary64 significand and exponent of [m * 2^e]: 53 bits, or fewer
    at the smallest exponent. *)
Definition canonical (m e : Z) : Z * Z :=
  let e' := Z.max (e + (Z.log2 m + 1) - 53) (-1074) in
  (Z.shiftl m (e - e'), e').

(** The least [n] with [m * 2^e < 10^n], looked for upwards from [n]. *)
Fixpoint decimalExponent (fuel : nat) (n m e : Z) : Z :=
  match fuel with
  | O => n
  | S fuel' =>
      if ltScaled m e 0 1 0 n then n else decimalExponent fuel' (n + 1) m e
  end.

(** Whether the decimal [s * 10^q] reads back as the double [m * 2^e]
    ([m], [e] canonical): it lies between the midpoints to the neighbouring
    doubles, the midpoints themselves counting when [m] is even. *)
Definition readsBack (m e s q : Z) : bool :=
  let lowerIsCloser := (m =? 2 ^ 52) && (-1074 <? e) in
  let '(lowC, lowE) := if lowerIsCloser then (4 * m - 1, e - 2)
                       else (2 * m - 1, e - 1) in
  let '(highC, highE) := (2 * m + 1, e - 1) in
  if Z.even m
  then leScaled lowC lowE 0 s 0 q && leScaled s 0 q highC highE 0
  else ltScaled lowC lowE 0 s 0 q && ltScaled s 0 q highC highE 0.

(** With [k] digits: the digits [s] and the place [n] of the decimal point
    of the [k]-digit decimal closest to the double among those that read
    back as it, if there is one. *)
Definition shortestWith (m e nv k : Z) : option (Z * Z) :=
  let q := nv - k in
  let below :=
    (m * 2 ^ Z.max e 0 * 10 ^ Z.max (- q) 0)
    / (2 ^ Z.max (- e) 0 * 10 ^ Z.max q 0) in
  let above := below + 1 in
  let pick (s : Z) := if s =? 10 ^ k then Some (10 ^ (k - 1), nv + 1)
                      else Some (s, nv) in
  match readsBack m e below q, readsBack m e above q with
  | true, true =>
      match compareScaled (2 * m) e 0 (2 * below + 1) 0 q with
      | Lt => pick below
      | Gt => pick above
      | Eq => if Z.even below then pick below else pick above
      end
  | true, false => pick below
  | false, true => pick above
  | false, false => None
  end.

Fixpoint shortest (fuel : nat) (m e nv k : Z) : Z * Z :=
  match fuel with
  | O => (m, nv)
  | S fuel' =>
      match shortestWith m e nv k with
      | Some found => found
      | None => shortest fuel' m e nv (k + 1)
      end
  end.

Definition digitsOf (s : Z) : string := NilZero.string_of_int (Z.to_int s).

Fixpoint zeros (n : nat) : string :=
  match n with
  | O => ""
  | S n' => String "0" (zeros n')
  end.

(** Number::toString for a positive finite double, from its digits [s]
    ([k] of them) and the place [n] of the decimal point. *)
Definition layout (s n : Z) : string :=
  let digits := digitsOf s in
  let k := Z.of_nat (String.length digits) in
  if (k <=? n) && (n <=? 21) then
    (digits ++ zeros (Z.to_nat (n - k)))%string
  else if (0 <? n) && (n <=? 21) then
    (substring 0 (Z.to_nat n) digits ++ "."
     ++ substring (Z.to_nat n) (Z.to_nat (k - n)) digits)%string
  else if (-6 <? n) && (n <=? 0) then
    ("0." ++ zeros (Z.to_nat (- n)) ++ digits)%string
  else
    let sign := if 0 <=? n - 1 then "+" else "-" in
    let exponent := (sign ++ digitsOf (Z.abs (n - 1)))%string in
    if k =? 1 then (digits ++ "e" ++ exponent)%string
    else (substring 0 1 digits ++ "."
          ++ substring 1 (Z.to_nat (k - 1)) digits ++ "e" ++ exponent)%string.

(** A lower estimate of that exponent: [log2] scaled by [log10 2], rounded
    down and lowered by one. *)
Definition decimalEstimate (m e : Z) : Z :=
  (Z.log2 m + e) * 30103 / 100000 - 1.

Definition positiveToString (m e : Z) : string :=
  let '(m', e') := canonical m e in
  let nv := decimalExponent 8 (decimalEstimate m' e') m' e' in
  let '(s, n) := shortest 17 m' e' nv 1 in
  layout s n.

(** Number::toString, radix 10. *)
Definition numberToString (x : spec_float) : string :=
  match x with
  | S754_nan => "NaN"
  | S754_zero _ => "0"
  | S754_infinity false => "Infinity"
  | S754_infinity true => "-Infinity"
  | S754_finite false m e => positiveToString (Zpos m) e
  | S754_finite true m e => ("-" ++ positiveToString (Zpos m) e)%string
  end.

(** Thrown values.  The three classes of the module are [Error]s: their
    [message] is the string [Error] makes of the argument of [super(message)].
    [Foreign] is an exception of the platform with its [name] and [message]:
    the [TypeError] of a failed [fetch] or of a failed conversion, the
    [DOMException] named [AbortError] of an aborted [fetch], the
    [SyntaxError] of [response.json()]. *)
Inductive jsError : Type :=
| NetworkError (message : string)
| ApiError (status : Z) (message : string)
| ValidationError (message : string)
| Foreign (name : string) (message : string).

(** [error.name] *)
Definition errorName (e : jsError) : string :=
  match e with
  | NetworkError _ => "NetworkError"
  | ApiError _ _ => "ApiError"
  | ValidationError _ => "ValidationError"
  | Foreign name _ => name
  end.

Definition instanceofNetworkError (e : jsError) : bool :=
  match e with NetworkError _ => true | _ => false end.

Definition instanceofApiError (e : jsError) : bool :=
  match e with ApiError _ _ => true | _ => false end.

Definition instanceofValidationError (e : jsError) : bool :=
  match e with ValidationError _ => true | _ => false end.

(** How a call completes: it returns a value or throws.  For an awaited
    promise, [Return] is fulfilment and [Throw] is rejection. *)
Inductive result (A : Type) : Type :=
| Return (value : A)
| Throw (error : jsError).
Arguments Return {A} value.
Arguments Throw {A} error.

(** What ToString throws on an object it cannot turn into a primitive (the
    text is the one of V8). *)
Definition cannotConvert : jsError :=
  Foreign "TypeError" "Cannot convert object to primitive value".

Definition hasOwn (key : string) (fields : list (string * jsValue)) : bool :=
  match lookupField key fields with
  | Some _ => true
  | None => false
  end.

(** [Array.prototype.join] on the strings of the items, as far as they have
    one. *)
Fixpoint joinTexts (texts : list (result string)) (first : bool)
  : result string :=
  match texts with
  | [] => Return ""
  | Throw error :: _ => Throw error
  | Return text :: rest =>
      match joinTexts rest false with
      | Throw error => Throw error
      | Return more =>
          Return ((if first then "" else ",") ++ text ++ more)%string
      end
  end.

(** ToString on a parsed value.  An array is joined with commas, [null]
    items giving nothing.  A parsed object has no callable property of its
    own: with an own [toString] neither that nor the inherited [valueOf]
    yields a primitive and the conversion throws; without one the inherited
    [toString] answers. *)
Fixpoint toStringJS (v : jsValue) : result string :=
  match v with
  | JNull => Return "null"
  | JBool true => Return "true"
  | JBool false => Return "false"
  | JNumber x => Return (numberToString x)
  | JString s => Return s
  | JArray items =>
      joinTexts (map (fun item => match item with
                                  | JNull => Return ""
                                  | _ => toStringJS item
                                  end) items) true
  | JObject fields =>
      if hasOwn "toString" fields then Throw cannotConvert
      else Return "[object Object]"
  end.

(** A [Response], as far as the source looks at it: [ok], [status], and how
    [json()] settles when the body is read. *)
Record response : Type := mkResponse {
  ok : bool;
  status : Z;
  json : result jsValue
}.

(** The caller's [AbortSignal]: [aborted k] tells whether it is already
    raised when the k-th [fetch] of the invocation (from 0) is issued.  A
    run is told by its requests, not by the clock: what the caller does
    while the loop waits shows in the state the next [fetch] finds. *)
Record abortSignal : Type := mkSignal {
  aborted : nat -> bool
}.

(** What [fetch] rejects with when its signal is raised: the reason of
    [abort()] called without an argument, the form the source uses. *)
Definition abortError : jsError :=
  Foreign "AbortError" "signal is aborted without reason".

(** What [fetch] rejects with when the request cannot be carried out. *)
Definition transportFailure (message : string) : jsError :=
  Foreign "TypeError" message.

(** The remote side: how the k-th request of the invocation settles once it
    is sent, whenever that is. *)
Definition network := nat -> result response.

Record request : Type := mkRequest {
  target : string;
  method : string;
  headers : list (string * string);
  bodyUrl : jsString          (* the body is [JSON.stringify({ url })] *)
}.

Inductive event : Type :=
| EvFetch (req : request)                          (* a request leaves *)
| EvWarn (attempt retries retryDelay : Z) (error : jsError)  (* console.warn *)
| EvSleep (ms : Z)                                 (* setTimeout awaited *)
| EvConsoleError (error : jsError).                (* console.error *)

Definition trace := list event.

(** [fetch(input, { ..., signal })]: with a raised signal the promise rejects
    and nothing is sent; otherwise the request leaves and the network
    decides. *)
Definition fetch (net : network) (signal : option abortSignal)
    (k : nat) (req : request) : trace * result response :=
  match signal with
  | Some s =>
      if aborted s k then ([], Throw abortError)
      else ([EvFetch req], net k)
  | None => ([EvFetch req], net k)
  end.

End Js.

(* ------------------------------------------------------------------------- *)
(** ** Regular expressions *)

Module Regex.
Import Js.

(** The fragment of the pattern language the source uses: literals, the dot,
    grouping, alternation, [?] and [+].  No flag is set on the source's
    pattern, so a character class is a predicate on one code unit. *)
Inductive regex : Type :=
| Never
| Eps
| Class (p : char16 -> bool)
| Seq (r1 r2 : regex)
| Alt (r1 r2 : regex)
| Star (r : regex).

Definition Chr (a : ascii) : regex := Class (N.eqb (N_of_ascii a)).

(** [.] without the [s] flag: any code unit but a line terminator. *)
Definition Dot : regex := Class (fun c => negb (isLineTerminator c)).

Definition Opt (r : regex) : regex := Alt r Eps.
Definition Plus (r : regex) : regex := Seq r (Star r).

Fixpoint Lit (s : string) : regex :=
  match s with
  | EmptyString => Eps
  | String a rest => Seq (Chr a) (Lit rest)
  end.

(** The strings a pattern denotes. *)
Inductive lang : regex -> jsString -> Prop :=
| L_eps : lang Eps []
| L_class p c : p c = true -> lang (Class p) [c]
| L_seq r1 r2 s1 s2 : lang r1 s1 -> lang r2 s2 -> lang (Seq r1 r2) (s1 ++ s2)
| L_alt_l r1 r2 s : lang r1 s -> lang (Alt r1 r2) s
| L_alt_r r1 r2 s : lang r2 s -> lang (Alt r1 r2) s
| L_star_nil r : lang (Star r) []
| L_star_cons r s1 s2 : lang r s1 -> lang (Star r) s2 -> lang (Star r) (s1 ++ s2).

(** Matching by derivatives: whether a match exists, which is all that
    [RegExp.prototype.test] reports. *)
Fixpoint nullable (r : regex) : bool :=
  match r with
  | Never => false
  | Eps => true
  | Class _ => false
  | Seq r1 r2 => nullable r1 && nullable r2
  | Alt r1 r2 => nullable r1 || nullable r2
  | Star _ => true
  end.

Fixpoint deriv (c : char16) (r : regex) : regex :=
  match r with
  | Never => Never
  | Eps => Never
  | Class p => if p c then Eps else Never
  | Seq r1 r2 =>
      if nullable r1
      then Alt (Seq (deriv c r1) r2) (deriv c r2)
      else Seq (deriv c r1) r2
  | Alt r1 r2 => Alt (deriv c r1) (deriv c r2)
  | Star r1 => Seq (deriv c r1) (Star r1)
  end.

(** [/^r$/.test(s)]: anchored at both ends and without the [m] flag, the
    pattern has to consume the whole input. *)
Fixpoint matchesWhole (r : regex) (s : jsString) : bool :=
  match s with
  | [] => nullable r
  | c :: rest => matchesWhole (deriv c r) rest
  end.

End Regex.

(* ------------------------------------------------------------------------- *)
(** ** The module [src/services/fetchVideo.js] *)

Module FetchVideo.
Import Js Regex.

Definition API_BASE_URL : string :=
  "https://yt-downloader-backend-x7xx.onrender.com".

(** [/^(https?:\/\/)?(www\.)?(youtube\.com|youtu\.be)\/.+$/] *)
Definition youtubeRegex : regex :=
  Seq (Opt (Seq (Lit "http") (Seq (Opt (Chr "s")) (Lit "://"))))
 (Seq (Opt (Lit "www."))
 (Seq (Alt (Lit "youtube.com") (Lit "youtu.be"))
 (Seq (Chr "/")
      (Plus Dot)))).

(** [new ApiError(status, message)]: [super(message)] stores the string of
    [message], and throws when there is none. *)
Definition newApiError (status : Z) (message : jsValue) : result jsError :=
  match toStringJS message with
  | Return text => Return (ApiError status text)
  | Throw conversion => Throw conversion
  end.

Definition validateYoutubeUrl (url : jsString) : result unit :=
  if negb (matchesWhole youtubeRegex url)
  then Throw (ValidationError "Invalid YouTube URL provided.")
  else Return tt.

Section MakeApiRequest.

Variable endpoint : string.
Variable url : jsString.
Variable retries : Z.
Variable retryDelay : Z.
Variable signal : option abortSignal.
Variable net : network.

Definition requestFor : request :=
  {| target := (API_BASE_URL ++ endpoint)%string;
     method := "POST";
     headers := [("Content-Type", "application/json")];
     bodyUrl := url |}.

(** The [try] block of one attempt; [k] counts the calls of [fetch] from 0. *)
Definition tryAttempt (k : nat) : trace * result response :=
  let (evs, fetched) := fetch net signal k requestFor in
  match fetched with
  | Throw error => (evs, Throw error)
  | Return response =>
      if negb (ok response) then
        let errorData :=
          match json response with       (* .catch(() => null) *)
          | Return data => data
          | Throw _ => JNull
          end in
        match newApiError (status response)
                (orElse (optChain errorData "message")
                        (JString "Unknown API error")) with
        | Return error => (evs, Throw error)
        | Throw conversion => (evs, Throw conversion)
        end
      else (evs, Return response)
  end.

(** [for (let attempt = 1; attempt <= retries; attempt++) { try ... catch ... }].
    [fuel] bounds the iterations; [makeApiRequest] supplies enough of it
    ([retryLoop_fuel] below).  Falling off the loop returns [undefined],
    here [None]. *)
Fixpoint retryLoop (fuel : nat) (attempt : Z)
  : trace * result (option response) :=
  match fuel with
  | O => ([], Return None)
  | S fuel' =>
      if attempt <=? retries then
        match tryAttempt (Z.to_nat (attempt - 1)) with
        | (evs, Return response) => (evs, Return (Some response))
        | (evs, Throw error) =>
            if String.eqb (errorName error) "AbortError" then
              (evs, Throw error)
            else if (attempt =? retries)
                    || negb (instanceofNetworkError error
                             || instanceofApiError error) then
              (evs, Throw error)
            else
              let (rest, settled) := retryLoop fuel' (attempt + 1) in
              (evs ++ [EvWarn attempt retries retryDelay error;
                       EvSleep retryDelay] ++ rest,
               settled)
        end
      else ([], Return None)
  end.

Definition makeApiRequest : trace * result (option response) :=
  match validateYoutubeUrl url with
  | Throw error => ([], Throw error)
  | Return _ => retryLoop (Z.to_nat retries) 1
  end.

End MakeApiRequest.

(** [error.status], [undefined] on anything but an [ApiError]. *)
Definition errorStatus (e : jsError) : option Z :=
  match e with
  | ApiError status _ => Some status
  | _ => None
  end.

Definition statusIs (e : jsError) (code : Z) : bool :=
  match errorStatus e with
  | Some s => s =? code
  | None => false
  end.

(** The [try] block of [fetchVideoInfo]. *)
Definition fetchVideoInfoTry (url : jsString) (signal : option abortSignal)
    (net : network) : trace * result jsValue :=
  let (evs, settled) := makeApiRequest "/infoVideo" url 3 1000 signal net in
  match settled with
  | Throw error => (evs, Throw error)
  | Return None =>
      (evs, Throw (Foreign "TypeError"
                     "Cannot read properties of undefined (reading 'json')"))
  | Return (Some response) =>
      match json response with
      | Throw error => (evs, Throw error)
      | Return videoInfo =>
          if negb (truthy videoInfo)
             || negb (truthyOpt (getProp videoInfo "title"))
             || negb (truthyOpt (getProp videoInfo "formats"))
          then (evs, Throw (ValidationError
                 "Invalid video info data received from server. Missing required fields."))
          else (evs, Return videoInfo)
      end
  end.

(** The [catch] block of [fetchVideoInfo]. *)
Definition fetchVideoInfoCatch (error : jsError) : trace * result jsValue :=
  ([EvConsoleError error],
   if instanceofApiError error && (statusIs error 404 || statusIs error 400)
   then Throw (ValidationError "Video not found or invalid URL.")
   else Throw error).

Definition fetchVideoInfo (url : jsString) (signal : option abortSignal)
    (net : network) : trace * result jsValue :=
  match fetchVideoInfoTry url signal net with
  | (evs, Return videoInfo) => (evs, Return videoInfo)
  | (evs, Throw error) =>
      let (logged, settled) := fetchVideoInfoCatch error in
      (evs ++ logged, settled)
  end.

Definition downloadVideo (url : jsString) (signal : option abortSignal)
    (net : network) : trace * result (option response) :=
  makeApiRequest "/download" url 3 1000 signal net.

End FetchVideo.

(* ------------------------------------------------------------------------- *)
(** ** What the properties speak about *)

Module Observe.
Import Js Regex FetchVideo.

Definition isFetch (ev : event) : bool :=
  match ev with EvFetch _ => true | _ => false end.

Definition isSleep (ev : event) : bool :=
  match ev with EvSleep _ => true | _ => false end.

(** Requests that left, and retry delays that were awaited. *)
Definition networkCalls (t : trace) : nat := List.length (filter isFetch t).
Definition sleeps (t : trace) : nat := List.length (filter isSleep t).

(** The kinds the [catch] block of the loop lets through to another attempt. *)
Definition retryable (e : jsError) : bool :=
  instanceofNetworkError e || instanceofApiError e.

(** The test the [catch] block runs first. *)
Definition isCancellation (e : jsError) : bool :=
  String.eqb (errorName e) "AbortError".

Section Attempts.

Variable endpoint : string.
Variable url : jsString.
Variable signal : option abortSignal.
Variable net : network.

(** How attempt number [attempt] (from 1, as in the source) ends. *)
Definition attemptOutcome (attempt : Z) : result response :=
  snd (tryAttempt endpoint url signal net (Z.to_nat (attempt - 1))).

Definition attemptEvents (attempt : Z) : trace :=
  fst (tryAttempt endpoint url signal net (Z.to_nat (attempt - 1))).

Definition failsRetryably (attempt : Z) : Prop :=
  exists e, attemptOutcome attempt = Throw e /\ retryable e = true.

(** Every attempt before [attempt] failed with a retryable kind, which is
    how the loop gets to [attempt]. *)
Definition reaches (attempt : Z) : Prop :=
  forall j, 1 <= j < attempt -> failsRetryably j.

End Attempts.

(** The loop entered at [attempt], with the iterations it has left. *)
Definition loopFrom (endpoint : string) (url : jsString)
    (retries retryDelay : Z) (signal : option abortSignal) (net : network)
    (attempt : Z) : trace * result (option response) :=
  retryLoop endpoint url retries retryDelay signal net
            (Z.to_nat (retries - attempt + 1)) attempt.

(** *** The validator's pattern, in the words of the specification

    Optional scheme, optional [www.], a host of the known set, then a
    non-empty path, read as what follows the slash after the host. *)
Definition knownSchemes : list jsString := [lit "http://"; lit "https://"].
Definition knownHosts : list jsString := [lit "youtube.com"; lit "youtu.be"].

Definition decomposes (pathOk : jsString -> Prop) (s : jsString) : Prop :=
  exists scheme www host path,
    In scheme ([] :: knownSchemes) /\
    In www [[]; lit "www."] /\
    In host knownHosts /\
    pathOk path /\
    s = scheme ++ www ++ host ++ lit "/" ++ path.

Definition specAcceptedUrl : jsString -> Prop :=
  decomposes (fun path => path <> []).

(** The same with the path kept on one line. *)
Definition singleLine (s : jsString) : Prop :=
  forall c, In c s -> isLineTerminator c = false.

Definition acceptedUrl : jsString -> Prop :=
  decomposes (fun path => path <> [] /\ singleLine path).

(** *** A valid Video Info, in the words of the specification *)
Definition hasNonEmptyTitle (v : jsValue) : Prop :=
  exists s, getProp v "title" = Some (JString s) /\ s <> "".

Definition hasNonEmptyFormats (v : jsValue) : Prop :=
  exists first rest, getProp v "formats" = Some (JArray (first :: rest)).

Definition specValidVideoInfo (v : jsValue) : Prop :=
  hasNonEmptyTitle v /\ hasNonEmptyFormats v.

(** *** The message of an ApiError, in the words of the specification

    The message field of the parsed body when present, the fixed text
    otherwise (a body that does not parse counts as no message). *)
Definition specErrorMessage (body : result jsValue) : jsValue :=
  match body with
  | Return data =>
      match optChain data "message" with
      | Some m => m
      | None => JString "Unknown API error"
      end
  | Throw _ => JString "Unknown API error"
  end.

(** The message field of the body of a failed response, [undefined] when
    the body does not parse or is [null]. *)
Definition messageField (r : response) : option jsValue :=
  optChain match json r with
           | Return data => data
           | Throw _ => JNull
           end "message".

(** *** Inputs used in the examples *)
Definition shortUrl : jsString := lit "https://youtu.be/abc123".

Definition twoLineUrl : jsString := lit "youtu.be/a" ++ [10%N] ++ lit "b".

Definition jsonResponse (code : Z) (body : jsValue) : response :=
  {| ok := (200 <=? code) && (code <=? 299);
     status := code;
     json := Return body |}.

Definition always (r : result response) : network := fun _ => r.

(** The first [n] requests settle as [first], the later ones as [later]. *)
Definition firstThen (n : nat) (first later : result response) : network :=
  fun k => if (k <? n)%nat then first else later.

Definition goodInfo : jsValue :=
  JObject [("title", JString "X");
           ("formats", JArray [JObject [("quality", JString "720p")]])].

Definition emptyFormatsInfo : jsValue :=
  JObject [("title", JString "X"); ("formats", JArray [])].

Definition noTitleInfo : jsValue :=
  JObject [("formats", JArray [JObject [("quality", JString "720p")]])].

Definition emptyMessageResponse : response :=
  jsonResponse 500 (JObject [("message", JString "")]).

Definition emptyArrayMessage : response :=
  jsonResponse 500 (JObject [("message", JArray [])]).

Definition listMessage : response :=
  jsonResponse 500
    (JObject [("message",
               JArray [JNumber (S754_finite false 3 (-1)); JNull; JBool true])]).

Definition shadowedToString : response :=
  jsonResponse 500
    (JObject [("message",
               JObject [("toString", JNumber (S754_finite false 1 0))])]).

Definition serverError : response :=
  jsonResponse 500 (JObject [("message", JString "boom")]).

(** A failed response whose body cannot be read any more: the caller aborted
    while it was coming in. *)
Definition cutOffError : response :=
  {| ok := false; status := 500; json := Throw abortError |}.

Definition notFound : response :=
  jsonResponse 404 (JObject [("message", JString "not found")]).

Definition neverAborted : abortSignal := {| aborted := fun _ => false |}.

(** Raised once the first request has been issued: the second [fetch] finds
    it raised. *)
Definition abortedAfterFirst : abortSignal :=
  {| aborted := fun k => (1 <=? k)%nat |}.
Definition abortedFromStart : abortSignal := {| aborted := fun _ => true |}.

End Observe.

(* ------------------------------------------------------------------------- *)
(** ** More to say about the executor *)

Module Runs.
Import Js Regex FetchVideo Observe.

(** What the loop makes of the way an attempt ends. *)
Definition settles (outcome : result response) : result (option response) :=
  match outcome with
  | Return response => Return (Some response)
  | Throw error => Throw error
  end.

(** What an event of the executor may be: the one request of the invocation,
    a warning about a retryable failure on an attempt that is not the last,
    or the configured delay. *)
Definition executorEvent (endpoint : string) (url : jsString)
    (retries retryDelay : Z) (ev : event) : Prop :=
  match ev with
  | EvFetch req => req = requestFor endpoint url
  | EvWarn attempt budget delay error =>
      budget = retries /\ delay = retryDelay
      /\ 1 <= attempt < retries /\ retryable error = true
  | EvSleep ms => ms = retryDelay
  | EvConsoleError _ => False
  end.

Definition isWarn (ev : event) : bool :=
  match ev with EvWarn _ _ _ _ => true | _ => false end.

Definition warnings (t : trace) : nat := List.length (filter isWarn t).

End Runs.

(* ------------------------------------------------------------------------- *)
(** ** The example usage at the end of the module

    The promise chain that runs when the module is loaded: metadata, then
    the download, then the body pumped into a new stream, turned into a blob
    and handed to the browser as [video.mp4]; one [catch] at the end. *)

Module Usage.
Import Js Regex FetchVideo Observe.

(** A chunk of a body, the bytes of a [Uint8Array]. *)
Definition chunk := list N.

(** How the reads of a body end: [{ done: true }], or a rejected read. *)
Inductive ending : Type :=
| Finished
| Broken (error : jsError).

(** The body of a response as its reader delivers it.  Bodies that never end
    are not covered. *)
Record bodyStream : Type := mkBody {
  chunks : list chunk;
  finish : ending
}.

Inductive streamEvent : Type :=
| Enqueue (value : chunk)      (* controller.enqueue(value) *)
| Close.                       (* controller.close() *)

(** [pump]: read; on [done] close and stop, otherwise enqueue and pump on. *)
Fixpoint pump (pending : list chunk) (finish : ending)
  : list streamEvent * result unit :=
  match pending with
  | [] =>
      match finish with
      | Finished => ([Close], Return tt)
      | Broken error => ([], Throw error)
      end
  | value :: rest =>
      let (evs, settled) := pump rest finish in
      (Enqueue value :: evs, settled)
  end.

(** What was put into the new stream, in order. *)
Fixpoint enqueued (evs : list streamEvent) : list chunk :=
  match evs with
  | [] => []
  | Enqueue value :: rest => value :: enqueued rest
  | Close :: rest => enqueued rest
  end.

Inductive usageEvent : Type :=
| Service (ev : event)                  (* what the two exported calls do *)
| LogVideoInfo (videoInfo : jsValue)    (* console.log("Video Info:", ...) *)
| Stream (ev : streamEvent)
| CreateObjectURL (blob : list N)
| CreateAnchor
| SetHref
| SetDownload (name : string)
| AppendAnchor
| ClickAnchor
| RevokeObjectURL
| LogCancelled                          (* "Request cancelled by user." *)
| LogValidationError (message : string)  (* "Validation Error:", error.message *)
| LogError (error : jsError).           (* "An error occurred:", error *)

(** [error.message] *)
Definition errorMessage (e : jsError) : string :=
  match e with
  | NetworkError message => message
  | ApiError _ message => message
  | ValidationError message => message
  | Foreign _ message => message
  end.

(** The [catch] at the end of the chain. *)
Definition onRejected (error : jsError) : list usageEvent :=
  if String.eqb (errorName error) "AbortError" then [LogCancelled]
  else if instanceofValidationError error then
    [LogValidationError (errorMessage error)]
  else [LogError error].

(** [`${response.status}`] *)
Definition statusText (code : Z) : string :=
  NilZero.string_of_int (Z.to_int code).

(** The second and third [then]: the guard on [ok], the reader of the body
    pumped into a new stream, and the blob read back from it.  [bodyOf] is
    [response.body], [null] answering [None]. *)
Definition rewrap (bodyOf : response -> option bodyStream)
    (value : option response) : list usageEvent * result (list N) :=
  match value with
  | None =>
      ([], Throw (Foreign "TypeError"
                    "Cannot read properties of undefined (reading 'ok')"))
  | Some response =>
      if negb (ok response) then
        ([], Throw (Foreign "Error"
                      ("Download failed with status "
                       ++ statusText (status response))%string))
      else
        match bodyOf response with
        | None =>
            ([], Throw (Foreign "TypeError"
                          "Cannot read properties of null (reading 'getReader')"))
        | Some body =>
            let (evs, settled) := pump (chunks body) (finish body) in
            (map Stream evs,
             match settled with
             | Return _ => Return (List.concat (enqueued evs))
             | Throw error => Throw error
             end)
        end
  end.

(** The last [then]. *)
Definition saveBlob (blob : list N) : list usageEvent :=
  [CreateObjectURL blob; CreateAnchor; SetHref; SetDownload "video.mp4";
   AppendAnchor; ClickAnchor; RevokeObjectURL].

(** The chain, for the URL it is given.  The signal is the same object in
    both calls; each call meets it, and the network, in its own time. *)
Definition usage (url : jsString)
    (signalInfo : option abortSignal) (netInfo : network)
    (signalDownload : option abortSignal) (netDownload : network)
    (bodyOf : response -> option bodyStream) : list usageEvent :=
  let (evsInfo, info) := fetchVideoInfo url signalInfo netInfo in
  match info with
  | Throw error => map Service evsInfo ++ onRejected error
  | Return videoInfo =>
      let (evsDownload, downloaded) :=
        downloadVideo url signalDownload netDownload in
      let before :=
        map Service evsInfo ++ [LogVideoInfo videoInfo]
        ++ map Service evsDownload in
      match downloaded with
      | Throw error => before ++ onRejected error
      | Return value =>
          let (evsStream, blobbed) := rewrap bodyOf value in
          match blobbed with
          | Throw error => before ++ evsStream ++ onRejected error
          | Return blob => before ++ evsStream ++ saveBlob blob
          end
      end
  end.

(** What loading the module runs: the chain on the placeholder URL. *)
Definition moduleLoad := usage (lit "your_youtube_url").

Definition isHandlerLog (ev : usageEvent) : bool :=
  match ev with
  | LogCancelled | LogValidationError _ | LogError _ => true
  | _ => false
  end.

Definition isRequest (ev : usageEvent) : bool :=
  match ev with Service (EvFetch _) => true | _ => false end.

(** Inputs used in the examples. *)
Definition twoChunks : bodyStream :=
  {| chunks := [[1; 2]%N; [3]%N]; finish := Finished |}.

Definition cutOffBody : bodyStream :=
  {| chunks := [[1; 2]%N]; finish := Broken abortError |}.

End Usage.

(* ------------------------------------------------------------------------- *)
(** ** Matching by derivatives decides the language of a pattern *)

Import Js Regex FetchVideo Observe Runs Usage.

Lemma lang_eps_inv s : lang Eps s -> s = [].
Proof. inversion 1; reflexivity. Qed.

Lemma lang_class_inv p s : lang (Class p) s -> exists c, s = [c] /\ p c = true.
Proof. inversion 1; subst; eauto. Qed.

Lemma lang_seq_inv r1 r2 s :
  lang (Seq r1 r2) s -> exists s1 s2, s = s1 ++ s2 /\ lang r1 s1 /\ lang r2 s2.
Proof. inversion 1; subst; eauto. Qed.

Lemma lang_alt_inv r1 r2 s : lang (Alt r1 r2) s -> lang r1 s \/ lang r2 s.
Proof. inversion 1; subst; auto. Qed.

Lemma lang_opt_inv r s : lang (Opt r) s -> s = [] \/ lang r s.
Proof.
  intros H. apply lang_alt_inv in H as [H | H]; auto.
  left. now apply lang_eps_inv.
Qed.

(** A non-empty word of a starred pattern starts with a non-empty word of the
    pattern. *)
Lemma lang_star_cons_inv r c s :
  lang (Star r) (c :: s) ->
  exists s1 s2, s = s1 ++ s2 /\ lang r (c :: s1) /\ lang (Star r) s2.
Proof.
  intros H. remember (Star r) as sr eqn:Esr. remember (c :: s) as w eqn:Ew.
  revert c s Ew.
  induction H as [ | | | | | | r' s1 s2 H1 _ H2 IH2 ]; intros c0 s0 Ew;
    try discriminate.
  injection Esr as ->.
  destruct s1 as [ | c1 s1'].
  - simpl in Ew. apply IH2; auto.
  - simpl in Ew. injection Ew as -> <-. eauto.
Qed.

Lemma nullable_lang r : nullable r = true <-> lang r [].
Proof.
  induction r as [ | | p | r1 IH1 r2 IH2 | r1 IH1 r2 IH2 | r IH ]; simpl.
  - split; [discriminate | inversion 1].
  - split; [constructor | reflexivity].
  - split; [discriminate | inversion 1].
  - rewrite andb_true_iff, IH1, IH2. split.
    + intros [H1 H2]. exact (L_seq _ _ [] [] H1 H2).
    + intros H. apply lang_seq_inv in H as (s1 & s2 & E & H1 & H2).
      symmetry in E. apply app_eq_nil in E as [-> ->]. auto.
  - rewrite orb_true_iff, IH1, IH2. split.
    + intros [H | H]; [now apply L_alt_l | now apply L_alt_r].
    + apply lang_alt_inv.
  - split; [constructor | reflexivity].
Qed.

Lemma deriv_lang r : forall c s, lang (deriv c r) s <-> lang r (c :: s).
Proof.
  induction r as [ | | p | r1 IH1 r2 IH2 | r1 IH1 r2 IH2 | r IH ];
    intros c s; simpl.
  - split; inversion 1.
  - split; inversion 1.
  - destruct (p c) eqn:Hp; split; intros H.
    + apply lang_eps_inv in H as ->. now constructor.
    + apply lang_class_inv in H as (c' & E & _). injection E as _ ->. constructor.
    + inversion H.
    + apply lang_class_inv in H as (c' & E & Hp'). injection E as <- _. congruence.
  - assert (Hcat : lang (Seq (deriv c r1) r2) s <->
                   exists s1 s2, s = s1 ++ s2 /\ lang r1 (c :: s1) /\ lang r2 s2).
    { split.
      - intros H. apply lang_seq_inv in H as (s1 & s2 & -> & H1 & H2).
        exists s1, s2. rewrite <- IH1. auto.
      - intros (s1 & s2 & -> & H1 & H2). constructor; [now apply IH1 | easy]. }
    assert (Hsplit : lang (Seq r1 r2) (c :: s) <->
                     (exists s1 s2, s = s1 ++ s2 /\ lang r1 (c :: s1) /\ lang r2 s2)
                     \/ (lang r1 [] /\ lang r2 (c :: s))).
    { split.
      - intros H. apply lang_seq_inv in H as (s1 & s2 & E & H1 & H2).
        destruct s1 as [ | c1 s1'].
        + simpl in E. subst s2. auto.
        + simpl in E. injection E as <- ->. left. eauto.
      - intros [(s1 & s2 & -> & H1 & H2) | [H1 H2]].
        + exact (L_seq _ _ (c :: s1) s2 H1 H2).
        + exact (L_seq _ _ [] (c :: s) H1 H2). }
    rewrite Hsplit. destruct (nullable r1) eqn:Hn.
    + split.
      * intros H. apply lang_alt_inv in H as [H | H].
        -- left. now apply Hcat.
        -- right. split; [now apply nullable_lang | now apply IH2].
      * intros [H | [_ H]].
        -- apply L_alt_l. now apply Hcat.
        -- apply L_alt_r. now apply IH2.
    + rewrite Hcat. split; [auto | ].
      intros [H | [H _]]; [exact H | ].
      apply nullable_lang in H. congruence.
  - split; intros H.
    + apply lang_alt_inv in H as [H | H];
        [apply L_alt_l; now apply IH1 | apply L_alt_r; now apply IH2].
    + apply lang_alt_inv in H as [H | H];
        [apply L_alt_l; now apply IH1 | apply L_alt_r; now apply IH2].
  - split; intros H.
    + apply lang_seq_inv in H as (s1 & s2 & -> & H1 & H2).
      apply IH in H1. exact (L_star_cons _ (c :: s1) s2 H1 H2).
    + apply lang_star_cons_inv in H as (s1 & s2 & -> & H1 & H2).
      constructor; [now apply IH | easy].
Qed.

Lemma matchesWhole_lang s : forall r, matchesWhole r s = true <-> lang r s.
Proof.
  induction s as [ | c s IH]; intros r; simpl.
  - apply nullable_lang.
  - rewrite IH. apply deriv_lang.
Qed.

(* ------------------------------------------------------------------------- *)
(** ** The language of the validator's pattern *)

Lemma lang_Chr a s : lang (Chr a) s <-> s = [N_of_ascii a].
Proof.
  unfold Chr. split.
  - intros H. apply lang_class_inv in H as (c & -> & Hc).
    apply N.eqb_eq in Hc. now subst.
  - intros ->. constructor. apply N.eqb_refl.
Qed.

Lemma lang_Lit str : forall s, lang (Lit str) s <-> s = lit str.
Proof.
  induction str as [ | a str IH]; intros s; simpl.
  - split; [apply lang_eps_inv | intros ->; constructor].
  - split.
    + intros H. apply lang_seq_inv in H as (s1 & s2 & -> & H1 & H2).
      apply lang_Chr in H1 as ->. apply IH in H2 as ->. reflexivity.
    + intros ->. apply (L_seq _ _ [N_of_ascii a] (lit str)).
      * now apply lang_Chr.
      * now apply IH.
Qed.

Lemma singleLine_nil : singleLine [].
Proof. intros c []. Qed.

Lemma singleLine_cons c s :
  singleLine (c :: s) <-> isLineTerminator c = false /\ singleLine s.
Proof.
  unfold singleLine. split.
  - intros H. split; [apply H; now left | intros d Hd; apply H; now right].
  - intros [Hc Hs] d [<- | Hd]; auto.
Qed.

Lemma lang_Dot s : lang Dot s <-> exists c, s = [c] /\ isLineTerminator c = false.
Proof.
  unfold Dot. split.
  - intros H. apply lang_class_inv in H as (c & -> & Hc).
    exists c. split; [reflexivity | now apply negb_true_iff].
  - intros (c & -> & Hc). constructor. now apply negb_true_iff.
Qed.

Lemma lang_star_Dot s : lang (Star Dot) s <-> singleLine s.
Proof.
  split.
  - intros H. remember (Star Dot) as sr eqn:Esr.
    induction H as [ | | | | | | r s1 s2 H1 _ H2 IH2 ]; try discriminate.
    + apply singleLine_nil.
    + injection Esr as ->. apply lang_Dot in H1 as (c & -> & Hc).
      apply singleLine_cons. auto.
  - induction s as [ | c s IH]; intros H.
    + constructor.
    + apply singleLine_cons in H as [Hc Hs].
      apply (L_star_cons Dot [c] s); [ | auto].
      apply lang_Dot. eauto.
Qed.

Lemma lang_plus_Dot s : lang (Plus Dot) s <-> s <> [] /\ singleLine s.
Proof.
  unfold Plus. split.
  - intros H. apply lang_seq_inv in H as (s1 & s2 & -> & H1 & H2).
    apply lang_Dot in H1 as (c & -> & Hc). apply lang_star_Dot in H2.
    split; [discriminate | ]. apply singleLine_cons. auto.
  - intros [Hne Hs]. destruct s as [ | c s]; [congruence | ].
    apply singleLine_cons in Hs as [Hc Hs].
    apply (L_seq Dot (Star Dot) [c] s).
    + apply lang_Dot. eauto.
    + now apply lang_star_Dot.
Qed.

(** The optional scheme of the pattern is nothing, [http://] or [https://]. *)
Lemma lang_scheme s :
  lang (Opt (Seq (Lit "http") (Seq (Opt (Chr "s")) (Lit "://")))) s <->
  In s ([] :: knownSchemes).
Proof.
  split.
  - intros H. apply lang_opt_inv in H as [-> | H]; [now left | ].
    apply lang_seq_inv in H as (s1 & s2 & -> & H1 & H2).
    apply lang_Lit in H1 as ->.
    apply lang_seq_inv in H2 as (s3 & s4 & -> & H3 & H4).
    apply lang_Lit in H4 as ->.
    apply lang_opt_inv in H3 as [-> | H3].
    + right; left; reflexivity.
    + apply lang_Chr in H3 as ->. right; right; left; reflexivity.
  - intros [<- | [<- | [<- | []]]]; apply matchesWhole_lang; reflexivity.
Qed.

Lemma lang_www s : lang (Opt (Lit "www.")) s <-> In s [[]; lit "www."].
Proof.
  split.
  - intros H. apply lang_opt_inv in H as [-> | H]; [now left | ].
    apply lang_Lit in H as ->. right; left; reflexivity.
  - intros [<- | [<- | []]]; apply matchesWhole_lang; reflexivity.
Qed.

Lemma lang_host s :
  lang (Alt (Lit "youtube.com") (Lit "youtu.be")) s <-> In s knownHosts.
Proof.
  split.
  - intros H. apply lang_alt_inv in H as [H | H]; apply lang_Lit in H as ->.
    + left; reflexivity.
    + right; left; reflexivity.
  - intros [<- | [<- | []]]; apply matchesWhole_lang; reflexivity.
Qed.

Lemma youtubeRegex_lang s : lang youtubeRegex s <-> acceptedUrl s.
Proof.
  unfold youtubeRegex, acceptedUrl, decomposes. split.
  - intros H.
    apply lang_seq_inv in H as (scheme & s1 & -> & Hscheme & H).
    apply lang_seq_inv in H as (www & s2 & -> & Hwww & H).
    apply lang_seq_inv in H as (host & s3 & -> & Hhost & H).
    apply lang_seq_inv in H as (slash & path & -> & Hslash & Hpath).
    apply lang_Chr in Hslash as ->.
    exists scheme, www, host, path.
    rewrite <- lang_scheme, <- lang_www, <- lang_host, <- lang_plus_Dot.
    repeat split; assumption.
  - intros (scheme & www & host & path & Hscheme & Hwww & Hhost & Hpath & ->).
    repeat apply L_seq.
    + now apply lang_scheme.
    + now apply lang_www.
    + now apply lang_host.
    + now apply (lang_Chr "/").
    + now apply lang_plus_Dot.
Qed.

Lemma validateYoutubeUrl_accepts url :
  validateYoutubeUrl url = Return tt <-> acceptedUrl url.
Proof.
  rewrite <- youtubeRegex_lang, <- matchesWhole_lang. unfold validateYoutubeUrl.
  destruct (matchesWhole youtubeRegex url); simpl; split; congruence.
Qed.

Lemma validateYoutubeUrl_rejects url :
  ~ acceptedUrl url <->
  validateYoutubeUrl url =
    Throw (ValidationError "Invalid YouTube URL provided.").
Proof.
  rewrite <- youtubeRegex_lang, <- matchesWhole_lang. unfold validateYoutubeUrl.
  destruct (matchesWhole youtubeRegex url); simpl; split; congruence.
Qed.

(* ------------------------------------------------------------------------- *)
(** ** Counting events *)

Lemma networkCalls_app t1 t2 :
  networkCalls (t1 ++ t2) = (networkCalls t1 + networkCalls t2)%nat.
Proof. unfold networkCalls. now rewrite filter_app, length_app. Qed.

Lemma sleeps_app t1 t2 : sleeps (t1 ++ t2) = (sleeps t1 + sleeps t2)%nat.
Proof. unfold sleeps. now rewrite filter_app, length_app. Qed.

Lemma retryable_not_cancellation e :
  retryable e = true -> isCancellation e = false.
Proof. destruct e; simpl; try discriminate; reflexivity. Qed.

(* ------------------------------------------------------------------------- *)
(** ** One attempt, and the equations of the loop *)

Section AttemptFacts.

Variable endpoint : string.
Variable url : jsString.
Variable signal : option abortSignal.
Variable net : network.

Local Abbreviation req := (requestFor endpoint url).
Local Abbreviation attemptTry := (tryAttempt endpoint url signal net).


(** An attempt sends one request, or none when the signal is raised, in
    which case it ends with the abort error. *)
Lemma tryAttempt_sent_or_aborted k :
  fst (attemptTry k) = [EvFetch req] \/
  attemptTry k = ([], Throw abortError).
Proof.
  unfold tryAttempt, fetch.
  destruct signal as [s | ].
  - destruct (aborted s k); [now right | left].
    destruct (net k) as [r | e];
      [destruct (ok r); simpl; [ | destruct (newApiError _ _)] | ];
      reflexivity.
  - left.
    destruct (net k) as [r | e];
      [destruct (ok r); simpl; [ | destruct (newApiError _ _)] | ];
      reflexivity.
Qed.

Lemma tryAttempt_retryable_sent k e :
  snd (attemptTry k) = Throw e -> retryable e = true ->
  fst (attemptTry k) = [EvFetch req].
Proof.
  intros He Hr. destruct (tryAttempt_sent_or_aborted k) as [H | H]; [exact H | ].
  rewrite H in He. simpl in He. injection He as <-. discriminate.
Qed.

(** An attempt returns only what the network answered, and only with [ok]. *)
Lemma tryAttempt_return k r :
  snd (attemptTry k) = Return r ->
  net k = Return r /\ ok r = true /\ fst (attemptTry k) = [EvFetch req].
Proof.
  unfold tryAttempt, fetch.
  destruct signal as [s | ].
  - destruct (aborted s k); [discriminate | ].
    destruct (net k) as [r' | e]; [ | discriminate].
    destruct (ok r') eqn:Hok; simpl;
      [ | destruct (newApiError _ _); discriminate].
    intros [= <-]. auto.
  - destruct (net k) as [r' | e]; [ | discriminate].
    destruct (ok r') eqn:Hok; simpl;
      [ | destruct (newApiError _ _); discriminate].
    intros [= <-]. auto.
Qed.

End AttemptFacts.

Section LoopFacts.

Variable endpoint : string.
Variable url : jsString.
Variable retries : Z.
Variable retryDelay : Z.
Variable signal : option abortSignal.
Variable net : network.

Local Abbreviation attemptTry := (tryAttempt endpoint url signal net).
Local Abbreviation loop := (loopFrom endpoint url retries retryDelay signal net).


Lemma fuel_step attempt :
  attempt <= retries ->
  Z.to_nat (retries - attempt + 1) = S (Z.to_nat (retries - (attempt + 1) + 1)).
Proof. lia. Qed.

Lemma loop_done attempt : retries < attempt -> loop attempt = ([], Return None).
Proof.
  intros H. unfold loopFrom.
  replace (Z.to_nat (retries - attempt + 1)) with O by lia. reflexivity.
Qed.

Lemma loop_return attempt r :
  attempt <= retries ->
  snd (attemptTry (Z.to_nat (attempt - 1))) = Return r ->
  loop attempt = (fst (attemptTry (Z.to_nat (attempt - 1))), Return (Some r)).
Proof.
  intros Hle Hr. unfold loopFrom. rewrite (fuel_step _ Hle). simpl.
  apply Z.leb_le in Hle. rewrite Hle.
  destruct (attemptTry (Z.to_nat (attempt - 1))) as [evs out].
  simpl in *. now subst out.
Qed.

Lemma loop_throw attempt e :
  attempt <= retries ->
  snd (attemptTry (Z.to_nat (attempt - 1))) = Throw e ->
  isCancellation e = true \/ attempt = retries \/ retryable e = false ->
  loop attempt = (fst (attemptTry (Z.to_nat (attempt - 1))), Throw e).
Proof.
  intros Hle He Hstop. unfold loopFrom. rewrite (fuel_step _ Hle). simpl.
  apply Z.leb_le in Hle. rewrite Hle.
  destruct (attemptTry (Z.to_nat (attempt - 1))) as [evs out].
  simpl in *. subst out.
  unfold isCancellation, retryable in Hstop.
  destruct (String.eqb (errorName e) "AbortError"); [reflexivity | ].
  destruct Hstop as [H | [H | H]].
  - discriminate.
  - apply Z.eqb_eq in H. now rewrite H.
  - rewrite H, orb_true_r. reflexivity.
Qed.

Lemma loop_retry attempt e :
  attempt < retries ->
  snd (attemptTry (Z.to_nat (attempt - 1))) = Throw e ->
  retryable e = true ->
  loop attempt =
    (fst (attemptTry (Z.to_nat (attempt - 1)))
       ++ [EvWarn attempt retries retryDelay e; EvSleep retryDelay]
       ++ fst (loop (attempt + 1)),
     snd (loop (attempt + 1))).
Proof.
  intros Hlt He Hr. unfold loopFrom.
  rewrite (fuel_step attempt) by lia. simpl.
  replace (attempt <=? retries) with true by (symmetry; apply Z.leb_le; lia).
  destruct (attemptTry (Z.to_nat (attempt - 1))) as [evs out].
  simpl in *. subst out.
  pose proof (retryable_not_cancellation e Hr) as Hc.
  unfold isCancellation in Hc. rewrite Hc.
  replace (attempt =? retries) with false by (symmetry; apply Z.eqb_neq; lia).
  unfold retryable in Hr. rewrite Hr. simpl.
  destruct (retryLoop endpoint url retries retryDelay signal net
              (Z.to_nat (retries - (attempt + 1) + 1)) (attempt + 1)).
  reflexivity.
Qed.

(** The fuel [makeApiRequest] gives the loop is enough: more changes nothing. *)
Lemma retryLoop_fuel fuel : forall attempt,
  retries - attempt + 1 <= Z.of_nat fuel ->
  retryLoop endpoint url retries retryDelay signal net fuel attempt
  = loop attempt.
Proof.
  induction fuel as [ | fuel IH]; intros attempt Hfuel.
  - rewrite loop_done by lia. reflexivity.
  - destruct (Z.leb_spec attempt retries) as [Hle | Hgt].
    + unfold loopFrom. rewrite (fuel_step _ Hle). simpl.
      rewrite IH by lia. reflexivity.
    + rewrite loop_done by lia. simpl.
      replace (attempt <=? retries) with false by (symmetry; apply Z.leb_gt; lia).
      reflexivity.
Qed.

Lemma makeApiRequest_loop :
  validateYoutubeUrl url = Return tt ->
  makeApiRequest endpoint url retries retryDelay signal net = loop 1.
Proof.
  intros Hv. unfold makeApiRequest. rewrite Hv.
  unfold loopFrom. f_equal. lia.
Qed.

Lemma makeApiRequest_invalid e :
  validateYoutubeUrl url = Throw e ->
  makeApiRequest endpoint url retries retryDelay signal net = ([], Throw e).
Proof. intros Hv. unfold makeApiRequest. now rewrite Hv. Qed.

End LoopFacts.

(* ------------------------------------------------------------------------- *)
(** ** Whole runs of the loop *)

Section LoopRuns.

Variable endpoint : string.
Variable url : jsString.
Variable retries : Z.
Variable retryDelay : Z.
Variable signal : option abortSignal.
Variable net : network.

Local Abbreviation req := (requestFor endpoint url).
Local Abbreviation loop := (loopFrom endpoint url retries retryDelay signal net).
Local Abbreviation failing := (failsRetryably endpoint url signal net).


(** [n] attempts in a row that fail with a retryable kind, none of them the
    last one: each sends its request and is followed by one delay, and the
    loop goes on from the attempt after them. *)
Lemma loop_skip n : forall attempt,
  attempt + Z.of_nat n <= retries ->
  (forall j, attempt <= j < attempt + Z.of_nat n -> failing j) ->
  exists pre,
    loop attempt = (pre ++ fst (loop (attempt + Z.of_nat n)),
                    snd (loop (attempt + Z.of_nat n)))
    /\ networkCalls pre = n /\ sleeps pre = n.
Proof.
  induction n as [ | n IH]; intros attempt Hle Hfail.
  - exists []. rewrite Z.add_0_r. simpl.
    destruct (loopFrom _ _ _ _ _ _ attempt); auto.
  - destruct (Hfail attempt ltac:(lia)) as (e & He & Hr).
    unfold attemptOutcome in He.
    rewrite (loop_retry _ _ _ _ _ _ attempt e) by (auto; lia).
    rewrite (tryAttempt_retryable_sent _ _ _ _ _ e He Hr).
    destruct (IH (attempt + 1)) as (pre & Hrun & Hcalls & Hsleeps).
    { lia. }
    { intros j Hj. apply Hfail. lia. }
    replace (attempt + 1 + Z.of_nat n) with (attempt + Z.of_nat (S n)) in Hrun
      by lia.
    rewrite Hrun. simpl fst. simpl snd.
    exists ([EvFetch req; EvWarn attempt retries retryDelay e;
             EvSleep retryDelay] ++ pre).
    split; [ | split].
    + reflexivity.
    + rewrite networkCalls_app, Hcalls. reflexivity.
    + rewrite sleeps_app, Hsleeps. reflexivity.
Qed.

(** From the first attempt to attempt [a]. *)
Lemma loop_reaches a :
  1 <= a <= retries ->
  reaches endpoint url signal net a ->
  exists pre,
    loop 1 = (pre ++ fst (loop a), snd (loop a))
    /\ Z.of_nat (networkCalls pre) = a - 1
    /\ Z.of_nat (sleeps pre) = a - 1.
Proof.
  intros Ha Hreach.
  destruct (loop_skip (Z.to_nat (a - 1)) 1) as (pre & Hrun & Hcalls & Hsleeps).
  { lia. }
  { intros j Hj. apply Hreach. lia. }
  replace (1 + Z.of_nat (Z.to_nat (a - 1))) with a in Hrun by lia.
  exists pre. repeat split; [exact Hrun | lia | lia].
Qed.

(** No run sends more requests than it has iterations. *)
Lemma retryLoop_calls fuel : forall attempt,
  (networkCalls
     (fst (retryLoop endpoint url retries retryDelay signal net fuel attempt))
   <= fuel)%nat.
Proof.
  induction fuel as [ | fuel IH]; intros attempt; simpl; [auto | ].
  destruct (attempt <=? retries); [ | cbn; lia].
  pose proof (tryAttempt_sent_or_aborted endpoint url signal net
                (Z.to_nat (attempt - 1))) as Hev.
  destruct (tryAttempt endpoint url signal net (Z.to_nat (attempt - 1)))
    as [evs out].
  assert (Hone : (networkCalls evs <= 1)%nat).
  { destruct Hev as [Hev | Hev]; simpl in Hev.
    - rewrite Hev. auto.
    - injection Hev as -> _. auto. }
  destruct out as [r | e]; [simpl fst; lia | ].
  destruct (String.eqb (errorName e) "AbortError"); [simpl fst; lia | ].
  destruct ((attempt =? retries)
            || negb (instanceofNetworkError e || instanceofApiError e));
    [simpl fst; lia | ].
  specialize (IH (attempt + 1)).
  destruct (retryLoop endpoint url retries retryDelay signal net fuel
              (attempt + 1)) as [rest settled].
  simpl fst in *. rewrite networkCalls_app.
  change (networkCalls
            (EvWarn attempt retries retryDelay e :: EvSleep retryDelay :: rest))
    with (networkCalls rest).
  lia.
Qed.

(** What a run can return: nothing when the loop is not entered, otherwise
    an answer of the network with [ok] set, untouched. *)
Lemma loop_outcome n : forall attempt,
  Z.to_nat (retries - attempt + 1) = n ->
  attempt <= retries ->
  (exists k r, attempt <= k <= retries
               /\ net (Z.to_nat (k - 1)) = Return r /\ ok r = true
               /\ snd (loop attempt) = Return (Some r))
  \/ (exists e, snd (loop attempt) = Throw e).
Proof.
  induction n as [ | n IH]; intros attempt Hn Hle; [lia | ].
  destruct (snd (tryAttempt endpoint url signal net (Z.to_nat (attempt - 1))))
    as [r | e] eqn:Hout.
  - left. exists attempt, r.
    destruct (tryAttempt_return _ _ _ _ _ _ Hout) as (Hnet & Hok & _).
    rewrite (loop_return endpoint url retries retryDelay signal net attempt r)
      by assumption.
    repeat split; auto; lia.
  - destruct (retryable e) eqn:Hr; [destruct (Z.eq_dec attempt retries) as [E | NE] | ].
    + right. exists e.
      rewrite (loop_throw endpoint url retries retryDelay signal net attempt e);
        auto.
    + rewrite (loop_retry endpoint url retries retryDelay signal net attempt e)
        by (auto; lia).
      simpl snd. destruct (IH (attempt + 1)) as [(k & r & Hk & H) | H];
        [lia | lia | left | right; exact H].
      exists k, r. split; [lia | exact H].
    + right. exists e.
      rewrite (loop_throw endpoint url retries retryDelay signal net attempt e);
        auto.
Qed.

End LoopRuns.

(* ------------------------------------------------------------------------- *)
(** ** The retrying request executor *)

Lemma tryAttempt_success endpoint url signal net k r :
  snd (fetch net signal k (requestFor endpoint url)) = Return r ->
  ok r = true ->
  tryAttempt endpoint url signal net k
  = ([EvFetch (requestFor endpoint url)], Return r).
Proof.
  unfold tryAttempt, fetch. intros Hf Hok.
  destruct signal as [s | ]; [destruct (aborted s k); [discriminate | ] | ];
    simpl in Hf; rewrite Hf, Hok; reflexivity.
Qed.

Lemma tryAttempt_failure endpoint url signal net k r :
  snd (fetch net signal k (requestFor endpoint url)) = Return r ->
  ok r = false ->
  tryAttempt endpoint url signal net k
  = ([EvFetch (requestFor endpoint url)],
     match toStringJS (orElse (messageField r) (JString "Unknown API error")) with
     | Return text => Throw (ApiError (status r) text)
     | Throw conversion => Throw conversion
     end).
Proof.
  unfold tryAttempt, fetch, newApiError, messageField. intros Hf Hok.
  destruct signal as [s | ]; [destruct (aborted s k); [discriminate | ] | ];
    simpl in Hf; rewrite Hf, Hok; simpl;
    destruct (toStringJS _); reflexivity.
Qed.

Lemma tryAttempt_not_cancelled_sent endpoint url signal net k e :
  snd (tryAttempt endpoint url signal net k) = Throw e ->
  isCancellation e = false ->
  fst (tryAttempt endpoint url signal net k) = [EvFetch (requestFor endpoint url)].
Proof.
  intros He Hc.
  destruct (tryAttempt_sent_or_aborted endpoint url signal net k) as [H | H];
    [exact H | ].
  rewrite H in He. simpl in He. injection He as <-. discriminate.
Qed.

(** C10: with a valid URL and an attempt budget below 1 the body of the retry
    loop never runs: the promise is fulfilled with [undefined], no request is
    sent and nothing is thrown. *)
Theorem no_budget_resolves_undefined
    endpoint url retries retryDelay signal net :
  validateYoutubeUrl url = Return tt ->
  retries < 1 ->
  makeApiRequest endpoint url retries retryDelay signal net = ([], Return None)
  /\ networkCalls (fst (makeApiRequest endpoint url retries retryDelay signal net))
     = 0%nat.
Proof.
  intros Hv Hr. rewrite makeApiRequest_loop by assumption.
  rewrite loop_done by lia. split; reflexivity.
Qed.

Lemma no_budget_resolves_undefined_witness :
  makeApiRequest "/download" shortUrl 0 1000 None (always (Return serverError))
  = ([], Return None)
  /\ networkCalls
       (fst (makeApiRequest "/download" shortUrl 0 1000 None
               (always (Return serverError)))) = 0%nat.
Proof.
  apply (no_budget_resolves_undefined "/download" shortUrl 0 1000 None
           (always (Return serverError))).
  - reflexivity.
  - lia.
Defined.

(** C7: when an attempt the loop gets to receives a response with a success
    status, the executor returns that very response on that attempt: the
    request of the attempt is the last event, so no later attempt is made and
    no delay follows; the only delays are those between the failed attempts
    before it (none when the first attempt succeeds). *)
Theorem success_returns_at_once
    endpoint url retries retryDelay signal net a r :
  validateYoutubeUrl url = Return tt ->
  1 <= a <= retries ->
  reaches endpoint url signal net a ->
  snd (fetch net signal (Z.to_nat (a - 1)) (requestFor endpoint url)) = Return r ->
  ok r = true ->
  snd (makeApiRequest endpoint url retries retryDelay signal net)
  = Return (Some r)
  /\ exists pre,
       fst (makeApiRequest endpoint url retries retryDelay signal net)
       = pre ++ [EvFetch (requestFor endpoint url)]
       /\ Z.of_nat (networkCalls pre) = a - 1
       /\ Z.of_nat (sleeps pre) = a - 1
       /\ Z.of_nat (networkCalls
                      (fst (makeApiRequest endpoint url retries retryDelay
                              signal net))) = a
       /\ Z.of_nat (sleeps
                      (fst (makeApiRequest endpoint url retries retryDelay
                              signal net))) = a - 1.
Proof.
  intros Hv Ha Hreach Hfetch Hok.
  rewrite makeApiRequest_loop by assumption.
  destruct (loop_reaches endpoint url retries retryDelay signal net a Ha Hreach)
    as (pre & Hrun & Hcalls & Hsleeps).
  pose proof (tryAttempt_success endpoint url signal net _ r Hfetch Hok) as Htry.
  rewrite (loop_return endpoint url retries retryDelay signal net a r) in Hrun
    by (try lia; now rewrite Htry).
  rewrite Htry in Hrun. simpl in Hrun. rewrite Hrun. simpl.
  split; [reflexivity | ]. exists pre.
  rewrite networkCalls_app, sleeps_app.
  repeat split; try assumption; unfold networkCalls, sleeps in *; simpl; lia.
Qed.

Lemma success_returns_at_once_witness :
  snd (makeApiRequest "/infoVideo" shortUrl 3 1000 None
         (firstThen 1 (Return serverError) (Return (jsonResponse 200 goodInfo))))
  = Return (Some (jsonResponse 200 goodInfo))
  /\ exists pre,
       fst (makeApiRequest "/infoVideo" shortUrl 3 1000 None
              (firstThen 1 (Return serverError)
                 (Return (jsonResponse 200 goodInfo))))
       = pre ++ [EvFetch (requestFor "/infoVideo" shortUrl)]
       /\ Z.of_nat (networkCalls pre) = 2 - 1
       /\ Z.of_nat (sleeps pre) = 2 - 1
       /\ Z.of_nat (networkCalls
                      (fst (makeApiRequest "/infoVideo" shortUrl 3 1000 None
                              (firstThen 1 (Return serverError)
                                 (Return (jsonResponse 200 goodInfo)))))) = 2
       /\ Z.of_nat (sleeps
                      (fst (makeApiRequest "/infoVideo" shortUrl 3 1000 None
                              (firstThen 1 (Return serverError)
                                 (Return (jsonResponse 200 goodInfo)))))) = 2 - 1.
Proof.
  apply (success_returns_at_once "/infoVideo" shortUrl 3 1000 None
           (firstThen 1 (Return serverError) (Return (jsonResponse 200 goodInfo)))
           2 (jsonResponse 200 goodInfo)).
  - reflexivity.
  - lia.
  - intros j Hj. assert (j = 1) as -> by lia.
    exists (ApiError 500 "boom"). split; reflexivity.
  - reflexivity.
  - reflexivity.
Defined.

(** C1 (what the code does instead): a transport failure of [fetch], which
    is a [TypeError] and not an instance of [NetworkError], is never
    retried: on whatever attempt it happens, the last one or not, the loop
    stops there and the [TypeError] itself is what the caller gets. *)
Theorem transport_failure_is_not_retried
    endpoint url retries retryDelay signal net a message :
  validateYoutubeUrl url = Return tt ->
  1 <= a <= retries ->
  reaches endpoint url signal net a ->
  attemptOutcome endpoint url signal net a = Throw (transportFailure message) ->
  snd (makeApiRequest endpoint url retries retryDelay signal net)
  = Throw (transportFailure message)
  /\ instanceofNetworkError (transportFailure message) = false
  /\ Z.of_nat (networkCalls
                 (fst (makeApiRequest endpoint url retries retryDelay signal net)))
     = a.
Proof.
  intros Hv Ha Hreach Hout. unfold attemptOutcome in Hout.
  rewrite makeApiRequest_loop by assumption.
  destruct (loop_reaches endpoint url retries retryDelay signal net a Ha Hreach)
    as (pre & Hrun & Hcalls & _).
  rewrite (loop_throw endpoint url retries retryDelay signal net a
             (transportFailure message)) in Hrun by (auto; lia).
  rewrite (tryAttempt_not_cancelled_sent _ _ _ _ _ _ Hout) in Hrun
    by reflexivity.
  rewrite Hrun. simpl. repeat split.
  rewrite networkCalls_app. unfold networkCalls in *. simpl. lia.
Qed.

Lemma transport_failure_is_not_retried_witness :
  snd (makeApiRequest "/infoVideo" shortUrl 3 1000 None
         (always (Throw (transportFailure "Failed to fetch"))))
  = Throw (transportFailure "Failed to fetch")
  /\ instanceofNetworkError (transportFailure "Failed to fetch") = false
  /\ Z.of_nat (networkCalls
                 (fst (makeApiRequest "/infoVideo" shortUrl 3 1000 None
                         (always (Throw (transportFailure "Failed to fetch"))))))
     = 1.
Proof.
  apply (transport_failure_is_not_retried "/infoVideo" shortUrl 3 1000 None
           (always (Throw (transportFailure "Failed to fetch"))) 1
           "Failed to fetch").
  - reflexivity.
  - lia.
  - intros j Hj. lia.
  - reflexivity.
Defined.

(** C2: with a budget of at least one attempt, no invocation sends more than
    [retries] requests, and every invocation ends in exactly one of a
    response with a success status or a thrown error; when the URL is valid
    and every attempt fails with a retryable kind, exactly [retries] requests
    are sent and the error of the last attempt is the one thrown. *)
Theorem bounded_retries endpoint url retries retryDelay signal net :
  1 <= retries ->
  Z.of_nat (networkCalls
              (fst (makeApiRequest endpoint url retries retryDelay signal net)))
  <= retries
  /\ ((exists r, snd (makeApiRequest endpoint url retries retryDelay signal net)
                 = Return (Some r) /\ ok r = true)
      \/ (exists e, snd (makeApiRequest endpoint url retries retryDelay signal net)
                    = Throw e))
  /\ (validateYoutubeUrl url = Return tt ->
      (forall j, 1 <= j <= retries -> failsRetryably endpoint url signal net j) ->
      Z.of_nat (networkCalls
                  (fst (makeApiRequest endpoint url retries retryDelay signal net)))
      = retries
      /\ exists e, attemptOutcome endpoint url signal net retries = Throw e
                   /\ snd (makeApiRequest endpoint url retries retryDelay signal net)
                      = Throw e).
Proof.
  intros Hr. split; [ | split].
  - unfold makeApiRequest. destruct (validateYoutubeUrl url); [ | simpl; lia].
    pose proof (retryLoop_calls endpoint url retries retryDelay signal net
                  (Z.to_nat retries) 1).
    lia.
  - destruct (validateYoutubeUrl url) as [[] | e] eqn:Hv.
    + rewrite makeApiRequest_loop by assumption.
      destruct (loop_outcome endpoint url retries retryDelay signal net
                  (Z.to_nat (retries - 1 + 1)) 1 eq_refl Hr)
        as [(k & r & _ & _ & Hok & Hret) | Hthrow]; eauto.
    + right. exists e. now rewrite (makeApiRequest_invalid _ _ _ _ _ _ e).
  - intros Hv Hall.
    rewrite makeApiRequest_loop by assumption.
    destruct (loop_reaches endpoint url retries retryDelay signal net retries)
      as (pre & Hrun & Hcalls & _).
    { lia. }
    { intros j Hj. apply Hall. lia. }
    destruct (Hall retries ltac:(lia)) as (e & He & Hretry).
    unfold attemptOutcome in *.
    rewrite (loop_throw endpoint url retries retryDelay signal net retries e)
      in Hrun by (auto; lia).
    rewrite (tryAttempt_retryable_sent _ _ _ _ _ _ He Hretry) in Hrun.
    rewrite Hrun. simpl. split.
    + rewrite networkCalls_app. unfold networkCalls in *. simpl. lia.
    + exists e. auto.
Qed.

Lemma bounded_retries_witness :
  Z.of_nat (networkCalls
              (fst (makeApiRequest "/infoVideo" shortUrl 3 1000 None
                      (always (Return serverError))))) = 3
  /\ exists e, attemptOutcome "/infoVideo" shortUrl None
                 (always (Return serverError)) 3 = Throw e
               /\ snd (makeApiRequest "/infoVideo" shortUrl 3 1000 None
                         (always (Return serverError))) = Throw e.
Proof.
  apply (bounded_retries "/infoVideo" shortUrl 3 1000 None
           (always (Return serverError))).
  - lia.
  - reflexivity.
  - intros j Hj. exists (ApiError 500 "boom").
    unfold attemptOutcome, always. split; reflexivity.
Defined.

Lemma cancellation_is_no_module_error e :
  isCancellation e = true ->
  instanceofNetworkError e = false
  /\ instanceofApiError e = false
  /\ instanceofValidationError e = false.
Proof. destruct e; simpl; intros H; try discriminate; auto. Qed.

(** C6: when an attempt the loop gets to ends with an error named
    [AbortError], that error is thrown to the caller as it is (it is an
    instance of none of the module's three classes) and the run ends with
    that attempt: nothing follows the events of the attempt, so no further
    request and no delay, whatever budget is left.  With a signal already
    raised when the first [fetch] is issued, no request is sent at all. *)
Theorem cancellation_ends_the_run endpoint url retries retryDelay signal net :
  (forall a e,
      validateYoutubeUrl url = Return tt ->
      1 <= a <= retries ->
      reaches endpoint url signal net a ->
      attemptOutcome endpoint url signal net a = Throw e ->
      isCancellation e = true ->
      snd (makeApiRequest endpoint url retries retryDelay signal net) = Throw e
      /\ (instanceofNetworkError e = false
          /\ instanceofApiError e = false
          /\ instanceofValidationError e = false)
      /\ (exists pre,
            fst (makeApiRequest endpoint url retries retryDelay signal net)
            = pre ++ attemptEvents endpoint url signal net a
            /\ Z.of_nat (networkCalls pre) = a - 1
            /\ Z.of_nat (sleeps pre) = a - 1)
      /\ Z.of_nat (networkCalls
                     (fst (makeApiRequest endpoint url retries retryDelay
                             signal net))) <= a
      /\ Z.of_nat (sleeps
                     (fst (makeApiRequest endpoint url retries retryDelay
                             signal net))) = a - 1)
  /\ (forall s,
        signal = Some s ->
        aborted s 0 = true ->
        networkCalls
          (fst (makeApiRequest endpoint url retries retryDelay signal net))
        = 0%nat
        /\ (validateYoutubeUrl url = Return tt -> 1 <= retries ->
            makeApiRequest endpoint url retries retryDelay signal net
            = ([], Throw abortError))).
Proof.
  split.
  - intros a e Hv Ha Hreach Hout Hc. unfold attemptOutcome in Hout.
    rewrite makeApiRequest_loop by assumption.
    destruct (loop_reaches endpoint url retries retryDelay signal net a Ha Hreach)
      as (pre & Hrun & Hcalls & Hsleeps).
    rewrite (loop_throw endpoint url retries retryDelay signal net a e) in Hrun
      by (auto; lia).
    simpl in Hrun. rewrite Hrun. simpl.
    split; [reflexivity | ].
    split; [now apply cancellation_is_no_module_error | ].
    split; [exists pre; auto | ].
    rewrite networkCalls_app, sleeps_app.
    destruct (tryAttempt_sent_or_aborted endpoint url signal net
                (Z.to_nat (a - 1))) as [Hev | Hev]; rewrite Hev;
      unfold networkCalls, sleeps in *; simpl; lia.
  - intros s -> Hs.
    assert (Hfirst : tryAttempt endpoint url (Some s) net (Z.to_nat (1 - 1))
                     = ([], Throw abortError)).
    { unfold tryAttempt, fetch. simpl. now rewrite Hs. }
    assert (Hrun : 1 <= retries ->
                   loopFrom endpoint url retries retryDelay (Some s) net 1
                   = ([], Throw abortError)).
    { intros Hr.
      rewrite (loop_throw endpoint url retries retryDelay (Some s) net 1
                 abortError); try lia.
      - now rewrite Hfirst.
      - now rewrite Hfirst.
      - now left. }
    split.
    + destruct (validateYoutubeUrl url) as [[] | e] eqn:Hv.
      * rewrite makeApiRequest_loop by assumption.
        destruct (Z_lt_le_dec retries 1) as [Hlt | Hge].
        -- now rewrite loop_done.
        -- now rewrite Hrun.
      * now rewrite (makeApiRequest_invalid _ _ _ _ _ _ e).
    + intros Hv Hr. rewrite makeApiRequest_loop by assumption. auto.
Qed.

Lemma cancellation_ends_the_run_witness :
  (snd (makeApiRequest "/download" shortUrl 3 1000
          (Some abortedAfterFirst)
          (always (Return serverError)))
   = Throw abortError
   /\ Z.of_nat (networkCalls
                  (fst (makeApiRequest "/download" shortUrl 3 1000
                          (Some abortedAfterFirst)
                          (always (Return serverError))))) <= 2)
  /\ networkCalls
       (fst (makeApiRequest "/download" shortUrl 3 1000 (Some abortedFromStart)
               (always (Return serverError)))) = 0%nat.
Proof.
  split.
  - destruct (cancellation_ends_the_run "/download" shortUrl 3 1000
                (Some abortedAfterFirst)
                (always (Return serverError))) as [Hobserved _].
    destruct (Hobserved 2 abortError) as (Hthrown & _ & _ & Hcalls & _).
    + reflexivity.
    + lia.
    + intros j Hj. assert (j = 1) as -> by lia.
      exists (ApiError 500 "boom"). split; reflexivity.
    + reflexivity.
    + reflexivity.
    + split; assumption.
  - destruct (cancellation_ends_the_run "/download" shortUrl 3 1000
                (Some abortedFromStart) (always (Return serverError)))
      as [_ Hstart].
    destruct (Hstart abortedFromStart) as [Hnone _].
    + reflexivity.
    + reflexivity.
    + exact Hnone.
Defined.

(* ------------------------------------------------------------------------- *)
(** ** The error message of a failed response *)

(** Induction on parsed values, through the items of arrays and the fields
    of objects. *)
Lemma jsValue_nested_ind (P : jsValue -> Prop) :
  P JNull ->
  (forall b, P (JBool b)) ->
  (forall x, P (JNumber x)) ->
  (forall s, P (JString s)) ->
  (forall items, Forall P items -> P (JArray items)) ->
  (forall fields, Forall (fun field => P (snd field)) fields ->
                  P (JObject fields)) ->
  forall v, P v.
Proof.
  intros Hnull Hbool Hnumber Hstring Harray Hobject.
  fix IH 1.
  intros [ | b | x | s | items | fields];
    [apply Hnull | apply Hbool | apply Hnumber | apply Hstring | | ].
  - apply Harray. induction items as [ | item items IHitems]; constructor.
    + apply IH.
    + exact IHitems.
  - apply Hobject. induction fields as [ | [key v] fields IHfields]; constructor.
    + apply IH.
    + exact IHfields.
Qed.

Lemma joinTexts_throws texts e0 :
  (forall e, In (Throw e) texts -> e = e0) ->
  forall first e, joinTexts texts first = Throw e -> e = e0.
Proof.
  induction texts as [ | [text | e'] texts IH]; intros Hall first e; simpl.
  - discriminate.
  - destruct (joinTexts texts false) as [more | e''] eqn:Htail; [discriminate | ].
    intros [= <-]. apply (IH (fun e Hin => Hall e (or_intror Hin)) false).
    exact Htail.
  - intros [= <-]. apply Hall. now left.
Qed.

(** The only way ToString fails on a parsed value. *)
Lemma toStringJS_throws v : forall e, toStringJS v = Throw e -> e = cannotConvert.
Proof.
  induction v as [ | b | x | s | items IH | fields _] using jsValue_nested_ind;
    intros e; simpl.
  - discriminate.
  - destruct b; discriminate.
  - discriminate.
  - discriminate.
  - apply joinTexts_throws. intros e' Hin.
    apply in_map_iff in Hin as (item & Hitem & Hin).
    rewrite Forall_forall in IH.
    destruct item; try discriminate; now apply (IH _ Hin).
  - destruct (hasOwn "toString" fields); [now intros [= <-] | discriminate].
Qed.

(** C8 (as stated, refuted): a failed response whose body is
    [{ "message": "" }] has a message field, the empty string, yet the error
    carries the fixed text and not that field. *)
Lemma empty_message_is_replaced :
  ok emptyMessageResponse = false
  /\ specErrorMessage (json emptyMessageResponse) = JString ""
  /\ attemptOutcome "/infoVideo" shortUrl None
       (always (Return emptyMessageResponse)) 1
     = Throw (ApiError 500 "Unknown API error")
  /\ attemptOutcome "/infoVideo" shortUrl None
       (always (Return emptyMessageResponse)) 1
     <> Throw (ApiError (status emptyMessageResponse) "").
Proof. repeat split; try reflexivity. discriminate. Qed.

(** C8 (amended): an attempt whose response has [ok] unset sends its one
    request, reads the body as JSON without failing on a body that does not
    parse, and throws [ApiError(status, message)] whenever the message can
    be made into a string: the message is ["Unknown API error"] when the
    body does not parse, when the parsed value has no [message] field and
    when the field is falsy (the empty string, [null], [false], zero);
    otherwise it is the string of the field, the field itself when it is a
    string.  A truthy field that has no string, an object with a [toString]
    of its own, makes the attempt throw that TypeError instead. *)
Theorem failed_status_throws_ApiError endpoint url signal net k r :
  snd (fetch net signal k (requestFor endpoint url)) = Return r ->
  ok r = false ->
  fst (tryAttempt endpoint url signal net k) = [EvFetch (requestFor endpoint url)]
  /\ (forall e, json r = Throw e ->
        snd (tryAttempt endpoint url signal net k)
        = Throw (ApiError (status r) "Unknown API error"))
  /\ (forall data, json r = Return data ->
        optChain data "message" = None ->
        snd (tryAttempt endpoint url signal net k)
        = Throw (ApiError (status r) "Unknown API error"))
  /\ (forall data field, json r = Return data ->
        optChain data "message" = Some field ->
        truthy field = false ->
        snd (tryAttempt endpoint url signal net k)
        = Throw (ApiError (status r) "Unknown API error"))
  /\ (forall data field text, json r = Return data ->
        optChain data "message" = Some field ->
        truthy field = true ->
        toStringJS field = Return text ->
        snd (tryAttempt endpoint url signal net k)
        = Throw (ApiError (status r) text))
  /\ (forall data text, json r = Return data ->
        optChain data "message" = Some (JString text) ->
        text <> "" ->
        snd (tryAttempt endpoint url signal net k)
        = Throw (ApiError (status r) text))
  /\ (forall data field conversion, json r = Return data ->
        optChain data "message" = Some field ->
        truthy field = true ->
        toStringJS field = Throw conversion ->
        snd (tryAttempt endpoint url signal net k) = Throw cannotConvert).
Proof.
  intros Hf Hok. rewrite (tryAttempt_failure _ _ _ _ _ r Hf Hok).
  unfold messageField. simpl fst. simpl snd.
  split; [reflexivity | ].
  split; [intros e ->; reflexivity | ].
  split; [intros data -> ->; reflexivity | ].
  split; [intros data field -> -> Ht; simpl; now rewrite Ht | ].
  split; [intros data field text -> -> Ht Hs; simpl; now rewrite Ht, Hs | ].
  split.
  - intros data text -> -> Hne. simpl.
    destruct text as [ | c rest]; [congruence | reflexivity].
  - intros data field conversion -> -> Ht Hs. simpl. rewrite Ht, Hs.
    now rewrite (toStringJS_throws field conversion Hs).
Qed.

Lemma failed_status_throws_ApiError_witness :
  snd (tryAttempt "/infoVideo" shortUrl None (always (Return notFound)) 0)
  = Throw (ApiError (status notFound) "not found")
  /\ snd (tryAttempt "/infoVideo" shortUrl None (always (Return listMessage)) 0)
     = Throw (ApiError (status listMessage) "1.5,,true")
  /\ snd (tryAttempt "/infoVideo" shortUrl None
            (always (Return shadowedToString)) 0)
     = Throw cannotConvert.
Proof.
  destruct (failed_status_throws_ApiError "/infoVideo" shortUrl None
              (always (Return notFound)) 0%nat notFound eq_refl eq_refl)
    as (_ & _ & _ & _ & _ & Hstring & _).
  destruct (failed_status_throws_ApiError "/infoVideo" shortUrl None
              (always (Return listMessage)) 0%nat listMessage eq_refl eq_refl)
    as (_ & _ & _ & _ & Htext & _ & _).
  destruct (failed_status_throws_ApiError "/infoVideo" shortUrl None
              (always (Return shadowedToString)) 0%nat shadowedToString
              eq_refl eq_refl)
    as (_ & _ & _ & _ & _ & _ & Hnone).
  split; [ | split].
  - apply (Hstring (JObject [("message", JString "not found")]) "not found");
      [reflexivity | reflexivity | discriminate].
  - apply (Htext (JObject [("message",
                            JArray [JNumber (S754_finite false 3 (-1)); JNull;
                                    JBool true])])
                 (JArray [JNumber (S754_finite false 3 (-1)); JNull; JBool true])
                 "1.5,,true"); reflexivity.
  - apply (Hnone (JObject [("message",
                            JObject [("toString",
                                      JNumber (S754_finite false 1 0))])])
                 (JObject [("toString", JNumber (S754_finite false 1 0))])
                 cannotConvert); reflexivity.
Defined.

(* ------------------------------------------------------------------------- *)
(** ** fetchVideoInfo and downloadVideo *)

Lemma fetchVideoInfoTry_rejected url signal net e :
  snd (makeApiRequest "/infoVideo" url 3 1000 signal net) = Throw e ->
  snd (fetchVideoInfoTry url signal net) = Throw e.
Proof.
  unfold fetchVideoInfoTry.
  destruct (makeApiRequest "/infoVideo" url 3 1000 signal net) as [evs out].
  simpl. now intros ->.
Qed.

Lemma fetchVideoInfo_catch url signal net e :
  snd (fetchVideoInfoTry url signal net) = Throw e ->
  snd (fetchVideoInfo url signal net) = snd (fetchVideoInfoCatch e).
Proof.
  unfold fetchVideoInfo.
  destruct (fetchVideoInfoTry url signal net) as [evs out].
  simpl. intros ->. reflexivity.
Qed.

(** C4: when the executor fails with an [ApiError] of status 404 or 400,
    [fetchVideoInfo] throws [ValidationError("Video not found or invalid
    URL.")]; an [ApiError] of any other status, a [NetworkError] and an
    abort error reach the caller as they are. *)
Theorem fetchVideoInfo_remaps_400_and_404 url signal net e :
  snd (makeApiRequest "/infoVideo" url 3 1000 signal net) = Throw e ->
  (forall code message,
      e = ApiError code message -> code = 404 \/ code = 400 ->
      snd (fetchVideoInfo url signal net)
      = Throw (ValidationError "Video not found or invalid URL."))
  /\ (forall code message,
        e = ApiError code message -> code <> 404 -> code <> 400 ->
        snd (fetchVideoInfo url signal net) = Throw (ApiError code message))
  /\ (instanceofNetworkError e = true ->
      snd (fetchVideoInfo url signal net) = Throw e)
  /\ (isCancellation e = true ->
      snd (fetchVideoInfo url signal net) = Throw e).
Proof.
  intros Hfail.
  rewrite (fetchVideoInfo_catch url signal net e)
    by now apply fetchVideoInfoTry_rejected.
  unfold fetchVideoInfoCatch, statusIs. simpl snd.
  repeat split.
  - intros code message -> [-> | ->]; reflexivity.
  - intros code message -> H404 H400. simpl.
    apply Z.eqb_neq in H404, H400. now rewrite H404, H400.
  - destruct e; simpl; try discriminate; reflexivity.
  - destruct e; simpl; try discriminate; reflexivity.
Qed.

Lemma fetchVideoInfo_remaps_400_and_404_witness :
  snd (fetchVideoInfo shortUrl None (always (Return notFound)))
  = Throw (ValidationError "Video not found or invalid URL.")
  /\ snd (fetchVideoInfo shortUrl None (always (Return serverError)))
     = Throw (ApiError 500 "boom").
Proof.
  split.
  - destruct (fetchVideoInfo_remaps_400_and_404 shortUrl None
                (always (Return notFound))
                (ApiError 404 "not found") eq_refl)
      as (Hremap & _).
    apply (Hremap 404 "not found"); [reflexivity | now left].
  - destruct (fetchVideoInfo_remaps_400_and_404 shortUrl None
                (always (Return serverError))
                (ApiError 500 "boom") eq_refl)
      as (_ & Hkeep & _).
    apply (Hkeep 500 "boom"); [reflexivity | lia | lia].
Defined.

(** C9: [downloadVideo] is the executor on the download endpoint with three
    attempts and a delay of 1000 ms; what it returns is a response the
    network answered with [ok] set, as it came (no body is read), and it
    throws whatever the executor throws, a 404 included. *)
Theorem downloadVideo_is_the_executor url signal net :
  downloadVideo url signal net
  = makeApiRequest "/download" url 3 1000 signal net
  /\ (forall value,
        snd (downloadVideo url signal net) = Return value ->
        exists k r, (k < 3)%nat /\ net k = Return r /\ ok r = true
                    /\ value = Some r)
  /\ (forall e,
        snd (makeApiRequest "/download" url 3 1000 signal net) = Throw e ->
        snd (downloadVideo url signal net) = Throw e).
Proof.
  split; [reflexivity | split].
  - unfold downloadVideo. intros value Hret.
    destruct (validateYoutubeUrl url) as [[] | e] eqn:Hv.
    + rewrite makeApiRequest_loop in Hret by assumption.
      destruct (loop_outcome "/download" url 3 1000 signal net
                  (Z.to_nat (3 - 1 + 1)) 1 eq_refl ltac:(lia))
        as [(k & r & Hk & Hnet & Hok & Hres) | (e & Hthrow)].
      * exists (Z.to_nat (k - 1)), r. rewrite Hres in Hret.
        injection Hret as <-. repeat split; auto. lia.
      * rewrite Hthrow in Hret. discriminate.
    + rewrite (makeApiRequest_invalid _ _ _ _ _ _ e Hv) in Hret. discriminate.
  - intros e He. exact He.
Qed.

Lemma downloadVideo_is_the_executor_witness :
  (exists k r, (k < 3)%nat
               /\ firstThen 2 (Return serverError)
                    (Return (jsonResponse 200 goodInfo)) k = Return r
               /\ ok r = true
               /\ Some (jsonResponse 200 goodInfo) = Some r)
  /\ snd (downloadVideo shortUrl None (always (Return notFound)))
     = Throw (ApiError 404 "not found").
Proof.
  destruct (downloadVideo_is_the_executor shortUrl None
              (firstThen 2 (Return serverError)
                 (Return (jsonResponse 200 goodInfo)))) as (_ & Hreturned & _).
  destruct (downloadVideo_is_the_executor shortUrl None
              (always (Return notFound))) as (_ & _ & Hthrown).
  split.
  - apply Hreturned. reflexivity.
  - apply Hthrown. reflexivity.
Defined.

(** C3 (as stated, refuted): a metadata body with an empty [formats] array
    is returned as the Video Info. *)
Lemma empty_formats_is_returned :
  snd (fetchVideoInfo shortUrl None
         (always (Return (jsonResponse 200 emptyFormatsInfo))))
  = Return emptyFormatsInfo
  /\ ~ specValidVideoInfo emptyFormatsInfo.
Proof.
  split; [reflexivity | ].
  intros [_ (first & rest & H)]. discriminate.
Qed.

Lemma fetchVideoInfoCatch_throws e : exists e', snd (fetchVideoInfoCatch e) = Throw e'.
Proof.
  unfold fetchVideoInfoCatch. simpl.
  destruct (instanceofApiError e && (statusIs e 404 || statusIs e 400)); eauto.
Qed.

Lemma fetchVideoInfo_returned_try url signal net v :
  snd (fetchVideoInfo url signal net) = Return v ->
  snd (fetchVideoInfoTry url signal net) = Return v.
Proof.
  unfold fetchVideoInfo.
  destruct (fetchVideoInfoTry url signal net) as [evs [v' | e]]; [auto | ].
  destruct (fetchVideoInfoCatch_throws e) as (e' & He').
  destruct (fetchVideoInfoCatch e) as [logged settled].
  simpl in *. congruence.
Qed.

Lemma fetchVideoInfo_returned url signal net v :
  snd (fetchVideoInfo url signal net) = Return v ->
  exists r,
    snd (makeApiRequest "/infoVideo" url 3 1000 signal net) = Return (Some r)
    /\ json r = Return v
    /\ truthy v = true
    /\ truthyOpt (getProp v "title") = true
    /\ truthyOpt (getProp v "formats") = true.
Proof.
  intros Hret. apply fetchVideoInfo_returned_try in Hret. revert Hret.
  unfold fetchVideoInfoTry.
  destruct (makeApiRequest "/infoVideo" url 3 1000 signal net) as [evs out].
  destruct out as [[r | ] | e]; simpl; try discriminate.
  destruct (json r) as [info | e] eqn:Hjson; simpl; try discriminate.
  destruct (truthy info) eqn:Hv; simpl; try discriminate.
  destruct (truthyOpt (getProp info "title")) eqn:Ht; simpl; try discriminate.
  destruct (truthyOpt (getProp info "formats")) eqn:Hf; simpl; try discriminate.
  intros [= <-]. exists r. auto.
Qed.

(** C3 (amended): the value [fetchVideoInfo] returns is the parsed body of
    the response, and its [title] and its [formats] are both there and
    truthy, so a title that is a string is not empty, while an empty
    [formats] array passes; a parsed body without a title or without a
    formats collection is rejected with the ValidationError that reports
    missing required fields. *)
Theorem fetchVideoInfo_requires_both_fields url signal net :
  (forall v,
      snd (fetchVideoInfo url signal net) = Return v ->
      truthyOpt (getProp v "title") = true
      /\ truthyOpt (getProp v "formats") = true
      /\ (forall s, getProp v "title" = Some (JString s) -> s <> ""))
  /\ (forall r v,
        snd (makeApiRequest "/infoVideo" url 3 1000 signal net)
        = Return (Some r) ->
        json r = Return v ->
        getProp v "title" = None \/ getProp v "formats" = None ->
        snd (fetchVideoInfo url signal net)
        = Throw (ValidationError
            "Invalid video info data received from server. Missing required fields.")).
Proof.
  split.
  - intros v Hret.
    destruct (fetchVideoInfo_returned url signal net v Hret)
      as (r & _ & _ & _ & Ht & Hf).
    repeat split; auto.
    intros s Hs ->. rewrite Hs in Ht. discriminate.
  - intros r v Hrun Hjson Hmissing.
    unfold fetchVideoInfo, fetchVideoInfoTry.
    destruct (makeApiRequest "/infoVideo" url 3 1000 signal net) as [evs out].
    simpl in Hrun. subst out. rewrite Hjson.
    assert (Hbad : negb (truthy v) || negb (truthyOpt (getProp v "title"))
                   || negb (truthyOpt (getProp v "formats")) = true).
    { destruct Hmissing as [H | H]; rewrite H; simpl;
        [now rewrite orb_true_r | now rewrite orb_true_r]. }
    rewrite Hbad. reflexivity.
Qed.

Lemma fetchVideoInfo_requires_both_fields_witness :
  (truthyOpt (getProp goodInfo "title") = true
   /\ truthyOpt (getProp goodInfo "formats") = true
   /\ (forall s, getProp goodInfo "title" = Some (JString s) -> s <> ""))
  /\ snd (fetchVideoInfo shortUrl None
            (always (Return (jsonResponse 200 noTitleInfo))))
     = Throw (ValidationError
         "Invalid video info data received from server. Missing required fields.").
Proof.
  destruct (fetchVideoInfo_requires_both_fields shortUrl None
              (always (Return (jsonResponse 200 goodInfo)))) as [Hreturned _].
  destruct (fetchVideoInfo_requires_both_fields shortUrl None
              (always (Return (jsonResponse 200 noTitleInfo)))) as [_ Hrejected].
  split.
  - apply Hreturned. reflexivity.
  - apply (Hrejected (jsonResponse 200 noTitleInfo) noTitleInfo).
    + reflexivity.
    + reflexivity.
    + left. reflexivity.
Defined.

(* ------------------------------------------------------------------------- *)
(** ** The URL validator *)

(** C5 (as stated, refuted): a URL whose path holds a line feed has the
    shape the specification describes, and the validator throws on it. *)
Lemma two_line_url_is_rejected :
  specAcceptedUrl twoLineUrl
  /\ validateYoutubeUrl twoLineUrl
     = Throw (ValidationError "Invalid YouTube URL provided.").
Proof.
  split; [ | reflexivity].
  exists [], [], (lit "youtu.be"), (lit "a" ++ [10%N] ++ lit "b").
  repeat split.
  - now left.
  - now left.
  - right; now left.
  - discriminate.
Qed.

(** C5 (amended): the validator returns normally exactly on the strings made
    of an optional [http://] or [https://], an optional [www.], one of the
    hosts [youtube.com] and [youtu.be], a slash, and a non-empty path
    without a line terminator; on every other string it throws
    [ValidationError("Invalid YouTube URL provided.")], and the executor
    then throws that error with no request sent and no delay taken,
    whatever the attempt budget. *)
Theorem validator_accepts_exactly url :
  (validateYoutubeUrl url = Return tt <-> acceptedUrl url)
  /\ (~ acceptedUrl url ->
      validateYoutubeUrl url
      = Throw (ValidationError "Invalid YouTube URL provided.")
      /\ forall endpoint retries retryDelay signal net,
           makeApiRequest endpoint url retries retryDelay signal net
           = ([], Throw (ValidationError "Invalid YouTube URL provided."))
           /\ networkCalls
                (fst (makeApiRequest endpoint url retries retryDelay signal net))
              = 0%nat
           /\ sleeps
                (fst (makeApiRequest endpoint url retries retryDelay signal net))
              = 0%nat).
Proof.
  split; [apply validateYoutubeUrl_accepts | ].
  intros Hno. apply validateYoutubeUrl_rejects in Hno.
  split; [exact Hno | ].
  intros endpoint retries retryDelay signal net.
  rewrite (makeApiRequest_invalid _ _ _ _ _ _ _ Hno). repeat split.
Qed.

Lemma validator_accepts_exactly_witness :
  acceptedUrl shortUrl
  /\ makeApiRequest "/infoVideo" (lit "not-a-url") 3 1000 None
       (always (Return (jsonResponse 200 goodInfo)))
     = ([], Throw (ValidationError "Invalid YouTube URL provided.")).
Proof.
  split.
  - apply (validator_accepts_exactly shortUrl). reflexivity.
  - destruct (validator_accepts_exactly (lit "not-a-url")) as [_ Hrejects].
    destruct Hrejects as [_ Hexecutor].
    + apply validateYoutubeUrl_rejects. reflexivity.
    + apply (Hexecutor "/infoVideo" 3 1000 None
               (always (Return (jsonResponse 200 goodInfo)))).
Defined.

(* ------------------------------------------------------------------------- *)
(** ** The scenarios of the specification, run on the model *)

Example scenario_metadata_returned :
  fetchVideoInfo shortUrl (Some neverAborted)
    (always (Return (jsonResponse 200 goodInfo)))
  = ([EvFetch (requestFor "/infoVideo" shortUrl)], Return goodInfo).
Proof. reflexivity. Qed.

Example scenario_not_a_url :
  fetchVideoInfo (lit "not-a-url") None
    (always (Return (jsonResponse 200 goodInfo)))
  = ([EvConsoleError
        (ValidationError "Invalid YouTube URL provided.")],
     Throw (ValidationError "Invalid YouTube URL provided.")).
Proof. reflexivity. Qed.

Example scenario_not_found :
  snd (fetchVideoInfo shortUrl None (always (Return notFound)))
  = Throw (ValidationError "Video not found or invalid URL.")
  /\ networkCalls (fst (fetchVideoInfo shortUrl None (always (Return notFound))))
     = 3%nat.
Proof. split; reflexivity. Qed.

Example scenario_server_error :
  snd (fetchVideoInfo shortUrl None (always (Return serverError)))
  = Throw (ApiError 500 "boom")
  /\ networkCalls
       (fst (fetchVideoInfo shortUrl None (always (Return serverError))))
     = 3%nat
  /\ sleeps (fst (fetchVideoInfo shortUrl None (always (Return serverError))))
     = 2%nat.
Proof. repeat split; reflexivity. Qed.

Example scenario_aborted_between_attempts :
  makeApiRequest "/download" shortUrl 3 1000 (Some abortedAfterFirst)
    (always (Return serverError))
  = ([EvFetch (requestFor "/download" shortUrl);
      EvWarn 1 3 1000 (ApiError 500 "boom");
      EvSleep 1000],
     Throw abortError).
Proof. reflexivity. Qed.

(** An abort while the body of a failed response is read is swallowed by
    [.catch(() => null)]: the attempt fails with an ApiError, the delay is
    taken, and the abort only shows at the next [fetch]. *)
Example scenario_aborted_while_reading_error_body :
  makeApiRequest "/download" shortUrl 3 1000 (Some abortedAfterFirst)
    (always (Return cutOffError))
  = ([EvFetch (requestFor "/download" shortUrl);
      EvWarn 1 3 1000 (ApiError 500 "Unknown API error");
      EvSleep 1000],
     Throw abortError).
Proof. reflexivity. Qed.

(* ------------------------------------------------------------------------- *)
(** ** Further properties of the executor *)

Lemma not_failing_after_return endpoint url signal net a r :
  attemptOutcome endpoint url signal net a = Return r ->
  ~ failsRetryably endpoint url signal net a.
Proof. intros Hr (e & He & _). congruence. Qed.

Lemma not_failing_when_not_retryable endpoint url signal net a e :
  attemptOutcome endpoint url signal net a = Throw e ->
  retryable e = false ->
  ~ failsRetryably endpoint url signal net a.
Proof. intros He Hr (e' & He' & Hr'). congruence. Qed.

(** From any attempt on, the loop runs through retried failures up to one
    attempt that decides. *)
Lemma loop_stops endpoint url retries retryDelay signal net n :
  forall attempt,
    Z.to_nat (retries - attempt) = n ->
    attempt <= retries ->
    exists a pre,
      attempt <= a <= retries
      /\ (forall j, attempt <= j < a -> failsRetryably endpoint url signal net j)
      /\ loopFrom endpoint url retries retryDelay signal net attempt
         = (pre ++ attemptEvents endpoint url signal net a,
            settles (attemptOutcome endpoint url signal net a))
      /\ Z.of_nat (networkCalls pre) = a - attempt
      /\ Z.of_nat (sleeps pre) = a - attempt
      /\ (failsRetryably endpoint url signal net a -> a = retries).
Proof.
  induction n as [ | n IH]; intros attempt Hn Hle.
  - (* the last attempt *)
    assert (attempt = retries) as -> by lia.
    exists retries, []. unfold attemptOutcome, attemptEvents.
    destruct (snd (tryAttempt endpoint url signal net (Z.to_nat (retries - 1))))
      as [r | e] eqn:Hout.
    + rewrite (loop_return _ _ _ _ _ _ retries r) by (auto; lia).
      simpl. repeat split; auto; lia.
    + rewrite (loop_throw _ _ _ _ _ _ retries e) by (auto; lia).
      simpl. repeat split; auto; lia.
  - unfold attemptOutcome, attemptEvents.
    destruct (snd (tryAttempt endpoint url signal net (Z.to_nat (attempt - 1))))
      as [r | e] eqn:Hout.
    + exists attempt, [].
      rewrite (loop_return _ _ _ _ _ _ attempt r) by (auto; lia).
      rewrite Hout. simpl. repeat split; auto; try lia.
      intros Hf. exfalso.
      now apply (not_failing_after_return endpoint url signal net attempt r).
    + destruct (retryable e) eqn:Hr.
      * destruct (IH (attempt + 1)) as (a & pre & Ha & Hfail & Hrun & Hc & Hs & Hlast);
          [lia | lia | ].
        exists a, ([EvFetch (requestFor endpoint url);
                    EvWarn attempt retries retryDelay e; EvSleep retryDelay]
                   ++ pre).
        rewrite (loop_retry _ _ _ _ _ _ attempt e) by (auto; lia).
        rewrite (tryAttempt_retryable_sent _ _ _ _ _ e Hout Hr).
        rewrite Hrun. simpl fst. simpl snd.
        split; [lia | ]. split.
        { intros j Hj. destruct (Z.eq_dec j attempt) as [-> | Hne].
          - exists e. split; assumption.
          - apply Hfail. lia. }
        split; [reflexivity | ].
        rewrite networkCalls_app, sleeps_app.
        unfold networkCalls, sleeps in *. simpl. repeat split; auto; lia.
      * exists attempt, [].
        rewrite (loop_throw _ _ _ _ _ _ attempt e) by (auto; lia).
        rewrite Hout. simpl. repeat split; auto; try lia.
        intros Hf. exfalso.
        now apply (not_failing_when_not_retryable endpoint url signal net attempt e).
Qed.

(** X1: every invocation with a valid URL and a budget of at least one
    attempt stops at one attempt [a] within the budget: the attempts before
    it all failed with a retryable kind and each cost one request and one
    delay, the promise settles the way attempt [a] ends, nothing follows the
    events of attempt [a], and if attempt [a] itself failed with a retryable
    kind it was the last one of the budget. *)
Theorem run_stops_at_one_attempt endpoint url retries retryDelay signal net :
  validateYoutubeUrl url = Return tt ->
  1 <= retries ->
  exists a pre,
    1 <= a <= retries
    /\ reaches endpoint url signal net a
    /\ makeApiRequest endpoint url retries retryDelay signal net
       = (pre ++ attemptEvents endpoint url signal net a,
          settles (attemptOutcome endpoint url signal net a))
    /\ Z.of_nat (networkCalls pre) = a - 1
    /\ Z.of_nat (sleeps pre) = a - 1
    /\ (failsRetryably endpoint url signal net a -> a = retries).
Proof.
  intros Hv Hr. rewrite makeApiRequest_loop by assumption.
  destruct (loop_stops endpoint url retries retryDelay signal net
              (Z.to_nat (retries - 1)) 1 eq_refl Hr)
    as (a & pre & Ha & Hfail & Hrun & Hc & Hs & Hlast).
  exists a, pre. repeat split; auto; lia.
Qed.

Lemma run_stops_at_one_attempt_witness :
  exists a pre,
    1 <= a <= 3
    /\ reaches "/infoVideo" shortUrl None
         (firstThen 1 (Return serverError) (Return (jsonResponse 200 goodInfo))) a
    /\ makeApiRequest "/infoVideo" shortUrl 3 1000 None
         (firstThen 1 (Return serverError) (Return (jsonResponse 200 goodInfo)))
       = (pre ++ attemptEvents "/infoVideo" shortUrl None
                   (firstThen 1 (Return serverError)
                      (Return (jsonResponse 200 goodInfo))) a,
          settles (attemptOutcome "/infoVideo" shortUrl None
                     (firstThen 1 (Return serverError)
                        (Return (jsonResponse 200 goodInfo))) a))
    /\ Z.of_nat (networkCalls pre) = a - 1
    /\ Z.of_nat (sleeps pre) = a - 1
    /\ (failsRetryably "/infoVideo" shortUrl None
          (firstThen 1 (Return serverError) (Return (jsonResponse 200 goodInfo))) a
        -> a = 3).
Proof.
  apply (run_stops_at_one_attempt "/infoVideo" shortUrl 3 1000 None
           (firstThen 1 (Return serverError) (Return (jsonResponse 200 goodInfo)))).
  - reflexivity.
  - lia.
Defined.

(** X2: an error that is neither a NetworkError nor an ApiError is never
    retried: on whatever attempt the loop meets it, the promise rejects with
    that error, nothing follows the events of the attempt, and the delays
    taken are the ones between the earlier attempts. *)
Theorem other_errors_are_never_retried
    endpoint url retries retryDelay signal net a e :
  validateYoutubeUrl url = Return tt ->
  1 <= a <= retries ->
  reaches endpoint url signal net a ->
  attemptOutcome endpoint url signal net a = Throw e ->
  retryable e = false ->
  snd (makeApiRequest endpoint url retries retryDelay signal net) = Throw e
  /\ (exists pre,
        fst (makeApiRequest endpoint url retries retryDelay signal net)
        = pre ++ attemptEvents endpoint url signal net a
        /\ Z.of_nat (networkCalls pre) = a - 1
        /\ Z.of_nat (sleeps pre) = a - 1)
  /\ Z.of_nat (sleeps
                 (fst (makeApiRequest endpoint url retries retryDelay signal net)))
     = a - 1.
Proof.
  intros Hv Ha Hreach Hout Hr. unfold attemptOutcome in Hout.
  rewrite makeApiRequest_loop by assumption.
  destruct (loop_reaches endpoint url retries retryDelay signal net a Ha Hreach)
    as (pre & Hrun & Hcalls & Hsleeps).
  rewrite (loop_throw endpoint url retries retryDelay signal net a e) in Hrun
    by (auto; lia).
  simpl in Hrun. rewrite Hrun. simpl.
  split; [reflexivity | ]. split; [exists pre; auto | ].
  rewrite sleeps_app.
  destruct (tryAttempt_sent_or_aborted endpoint url signal net
              (Z.to_nat (a - 1))) as [Hev | Hev]; rewrite Hev;
    unfold sleeps in *; simpl; lia.
Qed.

Lemma other_errors_are_never_retried_witness :
  snd (makeApiRequest "/download" shortUrl 3 1000 None
         (firstThen 1 (Return serverError)
            (Throw (ValidationError "from elsewhere"))))
  = Throw (ValidationError "from elsewhere")
  /\ Z.of_nat (sleeps
                 (fst (makeApiRequest "/download" shortUrl 3 1000 None
                         (firstThen 1 (Return serverError)
                            (Throw (ValidationError "from elsewhere"))))))
     = 2 - 1.
Proof.
  destruct (other_errors_are_never_retried "/download" shortUrl 3 1000 None
              (firstThen 1 (Return serverError)
                 (Throw (ValidationError "from elsewhere")))
              2 (ValidationError "from elsewhere"))
    as (Hthrown & _ & Hsleeps).
  - reflexivity.
  - lia.
  - intros j Hj. assert (j = 1) as -> by lia.
    exists (ApiError 500 "boom"). split; reflexivity.
  - reflexivity.
  - reflexivity.
  - split; assumption.
Defined.

Lemma tryAttempt_events endpoint url signal net k :
  fst (tryAttempt endpoint url signal net k) = [EvFetch (requestFor endpoint url)]
  \/ fst (tryAttempt endpoint url signal net k) = [].
Proof.
  destruct (tryAttempt_sent_or_aborted endpoint url signal net k) as [H | H];
    [now left | right; now rewrite H].
Qed.

Lemma retryLoop_events endpoint url retries retryDelay signal net fuel :
  forall attempt,
    1 <= attempt ->
    Forall (executorEvent endpoint url retries retryDelay)
      (fst (retryLoop endpoint url retries retryDelay signal net fuel attempt)).
Proof.
  induction fuel as [ | fuel IH]; intros attempt Hone; simpl; [constructor | ].
  destruct (Z.leb_spec attempt retries) as [Hle | Hgt]; [ | constructor].
  pose proof (tryAttempt_events endpoint url signal net (Z.to_nat (attempt - 1)))
    as Hev.
  destruct (tryAttempt endpoint url signal net (Z.to_nat (attempt - 1)))
    as [evs out].
  simpl in Hev.
  assert (Hevs : Forall (executorEvent endpoint url retries retryDelay) evs).
  { destruct Hev as [-> | ->]; repeat constructor. }
  destruct out as [r | e]; [exact Hevs | ].
  destruct (String.eqb (errorName e) "AbortError"); [exact Hevs | ].
  destruct (Z.eqb_spec attempt retries) as [Heq | Hne]; [exact Hevs | ].
  destruct (instanceofNetworkError e || instanceofApiError e) eqn:Hr;
    [ | exact Hevs].
  simpl. specialize (IH (attempt + 1) ltac:(lia)).
  destruct (retryLoop endpoint url retries retryDelay signal net fuel
              (attempt + 1)) as [rest settled].
  simpl in *. apply Forall_app. split; [exact Hevs | ].
  constructor; [ | constructor; [reflexivity | exact IH]].
  simpl. repeat split; try lia. exact Hr.
Qed.

(** X3: whatever the executor does to the outside is one of three things:
    the POST of [{ url }] as JSON to the base address followed by the
    endpoint, always the same request; a warning about a retryable failure
    on an attempt that is not the last; the delay it was configured with.
    It never logs an error. *)
Theorem executor_events endpoint url retries retryDelay signal net :
  Forall (executorEvent endpoint url retries retryDelay)
    (fst (makeApiRequest endpoint url retries retryDelay signal net))
  /\ (forall req,
        In (EvFetch req)
           (fst (makeApiRequest endpoint url retries retryDelay signal net)) ->
        target req = (API_BASE_URL ++ endpoint)%string
        /\ method req = "POST"
        /\ headers req = [("Content-Type", "application/json")]
        /\ bodyUrl req = url)
  /\ (forall ms,
        In (EvSleep ms)
           (fst (makeApiRequest endpoint url retries retryDelay signal net)) ->
        ms = retryDelay)
  /\ (forall e,
        ~ In (EvConsoleError e)
            (fst (makeApiRequest endpoint url retries retryDelay signal net))).
Proof.
  assert (Hall : Forall (executorEvent endpoint url retries retryDelay)
                   (fst (makeApiRequest endpoint url retries retryDelay signal net))).
  { unfold makeApiRequest. destruct (validateYoutubeUrl url); [ | constructor].
    apply retryLoop_events. lia. }
  split; [exact Hall | ].
  rewrite Forall_forall in Hall.
  split; [ | split].
  - intros req Hin. apply Hall in Hin. simpl in Hin. subst req. auto.
  - intros ms Hin. apply Hall in Hin. exact Hin.
  - intros e Hin. apply Hall in Hin. exact Hin.
Qed.

Lemma executor_events_witness :
  target (requestFor "/download" shortUrl)
  = "https://yt-downloader-backend-x7xx.onrender.com/download"
  /\ method (requestFor "/download" shortUrl) = "POST"
  /\ headers (requestFor "/download" shortUrl)
     = [("Content-Type", "application/json")]
  /\ bodyUrl (requestFor "/download" shortUrl) = shortUrl.
Proof.
  destruct (executor_events "/download" shortUrl 3 1000 None
              (always (Return serverError))) as (_ & Hrequests & _).
  apply (Hrequests (requestFor "/download" shortUrl)).
  left. reflexivity.
Defined.

Lemma retryLoop_counts endpoint url retries retryDelay signal net fuel :
  forall attempt,
    let t := fst (retryLoop endpoint url retries retryDelay signal net fuel attempt) in
    sleeps t = warnings t
    /\ (sleeps t <= networkCalls t)%nat
    /\ Z.of_nat (sleeps t) <= Z.max 0 (retries - attempt).
Proof.
  induction fuel as [ | fuel IH]; intros attempt; simpl;
    [repeat split; cbn; lia | ].
  destruct (Z.leb_spec attempt retries) as [Hle | Hgt];
    [ | repeat split; cbn; lia].
  pose proof (tryAttempt_events endpoint url signal net (Z.to_nat (attempt - 1)))
    as Hev.
  pose proof (tryAttempt_retryable_sent endpoint url signal net
                (Z.to_nat (attempt - 1))) as Hsent.
  destruct (tryAttempt endpoint url signal net (Z.to_nat (attempt - 1)))
    as [evs out].
  simpl in Hev, Hsent.
  assert (Hquiet : sleeps evs = 0%nat /\ warnings evs = 0%nat).
  { destruct Hev as [-> | ->]; split; reflexivity. }
  destruct Hquiet as [Hs Hw].
  destruct out as [r | e]; [simpl; rewrite Hs, Hw; repeat split; lia | ].
  destruct (String.eqb (errorName e) "AbortError");
    [simpl; rewrite Hs, Hw; repeat split; lia | ].
  destruct (Z.eqb_spec attempt retries) as [Heq | Hne];
    [simpl; rewrite Hs, Hw; repeat split; lia | ].
  destruct (instanceofNetworkError e || instanceofApiError e) eqn:Hr;
    [ | simpl; rewrite Hs, Hw; repeat split; lia].
  simpl. specialize (IH (attempt + 1)).
  destruct (retryLoop endpoint url retries retryDelay signal net fuel
              (attempt + 1)) as [rest settled].
  simpl in IH. destruct IH as (IHw & IHc & IHf).
  rewrite (Hsent e eq_refl Hr). simpl.
  unfold sleeps, warnings, networkCalls in *. simpl.
  repeat split; lia.
Qed.

Lemma delays_are_bounded_aux endpoint url retries retryDelay signal net :
  Z.of_nat
    (sleeps (fst (makeApiRequest endpoint url retries retryDelay signal net)))
  <= Z.max 0 (retries - 1).
Proof.
  unfold makeApiRequest.
  destruct (validateYoutubeUrl url); [ | cbn; lia].
  apply (retryLoop_counts endpoint url retries retryDelay signal net
           (Z.to_nat retries) 1).
Qed.


(** X6: a larger budget never loses a success: when the executor returns a
    response with some budget, it returns the same response, after the same
    number of requests, with every larger budget. *)
Theorem larger_budget_keeps_a_success
    endpoint url retries more retryDelay signal net r :
  snd (makeApiRequest endpoint url retries retryDelay signal net)
  = Return (Some r) ->
  retries <= more ->
  snd (makeApiRequest endpoint url more retryDelay signal net) = Return (Some r)
  /\ networkCalls (fst (makeApiRequest endpoint url more retryDelay signal net))
     = networkCalls (fst (makeApiRequest endpoint url retries retryDelay signal net)).
Proof.
  intros Hret Hmore.
  destruct (validateYoutubeUrl url) as [[] | e] eqn:Hv;
    [ | rewrite (makeApiRequest_invalid _ _ _ _ _ _ e Hv) in Hret; discriminate].
  destruct (Z_lt_le_dec retries 1) as [Hlt | Hge].
  { rewrite makeApiRequest_loop, loop_done in Hret by (auto; lia). discriminate. }
  rewrite (makeApiRequest_loop endpoint url retries retryDelay signal net Hv)
    in Hret |- *.
  rewrite (makeApiRequest_loop endpoint url more retryDelay signal net Hv).
  destruct (loop_stops endpoint url retries retryDelay signal net
              (Z.to_nat (retries - 1)) 1 eq_refl Hge)
    as (a & pre & Ha & Hfail & Hrun & Hc & _ & _).
  rewrite Hrun in Hret. simpl in Hret.
  destruct (attemptOutcome endpoint url signal net a) as [r' | e] eqn:Hout;
    [ | discriminate].
  simpl in Hret. injection Hret as ->.
  destruct (loop_reaches endpoint url more retryDelay signal net a)
    as (pre' & Hrun' & Hc' & _); [lia | exact Hfail | ].
  unfold attemptOutcome in Hout.
  rewrite (loop_return endpoint url more retryDelay signal net a r) in Hrun'
    by (auto; lia).
  rewrite Hrun, Hrun'. simpl. split; [reflexivity | ].
  rewrite !networkCalls_app. unfold attemptEvents. lia.
Qed.

Lemma larger_budget_keeps_a_success_witness :
  snd (makeApiRequest "/infoVideo" shortUrl 5 1000 None
         (firstThen 1 (Return serverError) (Return (jsonResponse 200 goodInfo))))
  = Return (Some (jsonResponse 200 goodInfo))
  /\ networkCalls
       (fst (makeApiRequest "/infoVideo" shortUrl 5 1000 None
               (firstThen 1 (Return serverError)
                  (Return (jsonResponse 200 goodInfo)))))
     = networkCalls
         (fst (makeApiRequest "/infoVideo" shortUrl 2 1000 None
                 (firstThen 1 (Return serverError)
                    (Return (jsonResponse 200 goodInfo))))).
Proof.
  apply (larger_budget_keeps_a_success "/infoVideo" shortUrl 2 5 1000 None
           (firstThen 1 (Return serverError) (Return (jsonResponse 200 goodInfo)))
           (jsonResponse 200 goodInfo)).
  - reflexivity.
  - lia.
Defined.

(* ------------------------------------------------------------------------- *)
(** ** Further properties of the validator *)

Lemma singleLine_app s1 s2 :
  singleLine (s1 ++ s2) <-> singleLine s1 /\ singleLine s2.
Proof.
  unfold singleLine. split.
  - intros H. split; intros c Hc; apply H; apply in_or_app; auto.
  - intros [H1 H2] c Hc. apply in_app_or in Hc as [Hc | Hc]; auto.
Qed.

Lemma singleLine_lit_checked s :
  forallb (fun c => negb (isLineTerminator c)) s = true -> singleLine s.
Proof.
  intros H c Hc. rewrite forallb_forall in H.
  apply H in Hc. now apply negb_true_iff.
Qed.

(** What comes before the path of an accepted URL: one of twelve prefixes,
    each on one line and at least nine code units long. *)
Lemma accepted_prefix scheme www host :
  In scheme ([] :: knownSchemes) -> In www [[]; lit "www."] ->
  In host knownHosts ->
  singleLine (scheme ++ www ++ host ++ lit "/")
  /\ (9 <= List.length (scheme ++ www ++ host ++ lit "/"))%nat.
Proof.
  intros [<- | [<- | [<- | []]]] [<- | [<- | []]] [<- | [<- | []]];
    (split; [apply singleLine_lit_checked; reflexivity | cbv; lia]).
Qed.

(** X7: a URL the validator lets through holds no line terminator anywhere
    (LF, CR, U+2028, U+2029: a pasted URL with a trailing newline is
    rejected) and is at least ten code units long, the length of
    [youtu.be/x]. *)
Theorem accepted_urls_are_single_line url :
  validateYoutubeUrl url = Return tt ->
  singleLine url /\ (10 <= List.length url)%nat.
Proof.
  intros Hv. apply validateYoutubeUrl_accepts in Hv.
  destruct Hv as (scheme & www & host & path & Hs & Hw & Hh & [Hne Hline] & ->).
  destruct (accepted_prefix scheme www host Hs Hw Hh) as [Hpre Hlen].
  replace (scheme ++ www ++ host ++ lit "/" ++ path)
    with ((scheme ++ www ++ host ++ lit "/") ++ path)
    by (now rewrite <- !app_assoc).
  split.
  - apply singleLine_app. split; assumption.
  - destruct path as [ | c path]; [congruence | ].
    rewrite length_app. cbn [List.length]. lia.
Qed.

Lemma accepted_urls_are_single_line_witness :
  singleLine shortUrl /\ (10 <= List.length shortUrl)%nat.
Proof.
  apply (accepted_urls_are_single_line shortUrl). reflexivity.
Defined.

(** X8: the validator looks at nothing after the first character of the
    path: an accepted URL stays accepted with anything appended to it that
    holds no line terminator. *)
Theorem accepted_urls_extend url suffix :
  validateYoutubeUrl url = Return tt ->
  singleLine suffix ->
  validateYoutubeUrl (url ++ suffix) = Return tt.
Proof.
  intros Hv Hsuffix. apply validateYoutubeUrl_accepts in Hv.
  apply validateYoutubeUrl_accepts.
  destruct Hv as (scheme & www & host & path & Hs & Hw & Hh & [Hne Hline] & ->).
  exists scheme, www, host, (path ++ suffix).
  repeat split; auto.
  - destruct path; [congruence | discriminate].
  - apply singleLine_app. split; assumption.
  - now rewrite <- !app_assoc.
Qed.

Lemma accepted_urls_extend_witness :
  validateYoutubeUrl (shortUrl ++ lit "?t=10 and more") = Return tt.
Proof.
  apply (accepted_urls_extend shortUrl (lit "?t=10 and more")).
  - reflexivity.
  - apply singleLine_lit_checked. reflexivity.
Defined.

(* ------------------------------------------------------------------------- *)
(** ** Further properties of fetchVideoInfo and downloadVideo *)

Lemma fetchVideoInfoTry_events url signal net :
  fst (fetchVideoInfoTry url signal net)
  = fst (makeApiRequest "/infoVideo" url 3 1000 signal net).
Proof.
  unfold fetchVideoInfoTry.
  destruct (makeApiRequest "/infoVideo" url 3 1000 signal net) as [evs out].
  destruct out as [[r | ] | e]; [ | reflexivity | reflexivity].
  destruct (json r) as [info | e]; [ | reflexivity].
  destruct (negb (truthy info) || negb (truthyOpt (getProp info "title"))
            || negb (truthyOpt (getProp info "formats"))); reflexivity.
Qed.

Lemma fetchVideoInfoCatch_cases original :
  snd (fetchVideoInfoCatch original) = Throw original
  \/ (exists code message,
        original = ApiError code message /\ (code = 404 \/ code = 400)
        /\ snd (fetchVideoInfoCatch original)
           = Throw (ValidationError "Video not found or invalid URL.")).
Proof.
  unfold fetchVideoInfoCatch, statusIs. simpl snd.
  destruct original as [m | code m | m | name m]; simpl; auto.
  destruct (Z.eqb_spec code 404) as [-> | H404]; simpl.
  - right. exists 404, m. auto.
  - destruct (Z.eqb_spec code 400) as [-> | H400]; simpl; auto.
    right. exists 400, m. auto.
Qed.

(** X9: [fetchVideoInfo] never rejects with an ApiError of status 404 or
    400, whatever the network does. *)
Theorem fetchVideoInfo_never_throws_400_404 url signal net code message :
  snd (fetchVideoInfo url signal net) = Throw (ApiError code message) ->
  code <> 404 /\ code <> 400.
Proof.
  unfold fetchVideoInfo.
  destruct (fetchVideoInfoTry url signal net) as [evs [v | original]];
    [discriminate | ].
  destruct (fetchVideoInfoCatch_cases original)
    as [Hsame | (c & m & -> & Hc & Hremap)].
  - destruct (fetchVideoInfoCatch original) as [logged settled] eqn:Hcatch.
    simpl in *. subst settled. intros [= ->].
    unfold fetchVideoInfoCatch, statusIs in Hcatch. simpl in Hcatch.
    destruct (Z.eqb_spec code 404) as [-> | H404]; [discriminate | ].
    destruct (Z.eqb_spec code 400) as [-> | H400]; [discriminate | ].
    auto.
  - destruct (fetchVideoInfoCatch (ApiError c m)) as [logged settled].
    simpl in *. subst settled. discriminate.
Qed.

Lemma fetchVideoInfo_never_throws_400_404_witness : 500 <> 404 /\ 500 <> 400.
Proof.
  apply (fetchVideoInfo_never_throws_400_404 shortUrl None
           (always (Return serverError)) 500 "boom").
  reflexivity.
Defined.

(** X10: [fetchVideoInfo] adds no request and no delay to those of the
    executor: at most three requests and two delays.  When it returns, its
    events are the executor's; when it throws, they are the executor's
    followed by one [console.error] of the error as it was before the
    remapping, so the log keeps the ApiError that the caller sees as a
    ValidationError. *)
Theorem fetchVideoInfo_logs_the_original_error url signal net :
  (forall v,
      snd (fetchVideoInfo url signal net) = Return v ->
      fst (fetchVideoInfo url signal net)
      = fst (makeApiRequest "/infoVideo" url 3 1000 signal net))
  /\ (forall e,
        snd (fetchVideoInfo url signal net) = Throw e ->
        exists original,
          fst (fetchVideoInfo url signal net)
          = fst (makeApiRequest "/infoVideo" url 3 1000 signal net)
            ++ [EvConsoleError original]
          /\ (e = original
              \/ exists code message,
                   original = ApiError code message
                   /\ (code = 404 \/ code = 400)
                   /\ e = ValidationError
                            "Video not found or invalid URL."))
  /\ networkCalls (fst (fetchVideoInfo url signal net))
     = networkCalls (fst (makeApiRequest "/infoVideo" url 3 1000 signal net))
  /\ (networkCalls (fst (fetchVideoInfo url signal net)) <= 3)%nat
  /\ (sleeps (fst (fetchVideoInfo url signal net)) <= 2)%nat.
Proof.
  pose proof (fetchVideoInfoTry_events url signal net) as Hevs.
  assert (Hcalls : (networkCalls
                      (fst (makeApiRequest "/infoVideo" url 3 1000 signal net))
                    <= 3)%nat).
  { unfold makeApiRequest. destruct (validateYoutubeUrl url); [ | cbn; lia].
    apply (retryLoop_calls "/infoVideo" url 3 1000 signal net 3 1). }
  assert (Hsleeps : (sleeps
                       (fst (makeApiRequest "/infoVideo" url 3 1000 signal net))
                     <= 2)%nat).
  { pose proof (delays_are_bounded_aux "/infoVideo" url 3 1000 signal net). lia. }
  unfold fetchVideoInfo.
  destruct (fetchVideoInfoTry url signal net) as [evs [v | original]];
    simpl in Hevs; subst evs.
  - simpl. split; [auto | ]. split; [intros e He; discriminate | auto].
  - destruct (fetchVideoInfoCatch original) as [logged settled] eqn:Hcatch.
    assert (logged = [EvConsoleError original]) as ->.
    { unfold fetchVideoInfoCatch in Hcatch. now injection Hcatch as <- _. }
    pose proof (fetchVideoInfoCatch_cases original) as Hcases.
    rewrite Hcatch in Hcases. simpl in Hcases.
    simpl fst. simpl snd. rewrite networkCalls_app, sleeps_app.
    change (networkCalls [EvConsoleError original]) with 0%nat.
    change (sleeps [EvConsoleError original]) with 0%nat.
    split.
    { intros v Hv. destruct Hcases as [H | (c & m & _ & _ & H)]; congruence. }
    split.
    { intros e He. exists original. split; [reflexivity | ].
      destruct Hcases as [H | (c & m & Ho & Hc & H)].
      - left. congruence.
      - right. exists c, m. repeat split; auto. congruence. }
    repeat split; lia.
Qed.

Lemma fetchVideoInfo_logs_the_original_error_witness :
  exists original,
    fst (fetchVideoInfo shortUrl None (always (Return notFound)))
    = fst (makeApiRequest "/infoVideo" shortUrl 3 1000 None
             (always (Return notFound)))
      ++ [EvConsoleError original]
    /\ (ValidationError "Video not found or invalid URL." = original
        \/ exists code message,
             original = ApiError code message
             /\ (code = 404 \/ code = 400)
             /\ ValidationError "Video not found or invalid URL."
                = ValidationError "Video not found or invalid URL.").
Proof.
  destruct (fetchVideoInfo_logs_the_original_error shortUrl None
              (always (Return notFound))) as (_ & Hthrown & _).
  apply (Hthrown (ValidationError "Video not found or invalid URL.")).
  reflexivity.
Defined.

Lemma truthy_property_of_object v key :
  truthyOpt (getProp v key) = true -> exists fields, v = JObject fields.
Proof. destruct v; simpl; try discriminate. eauto. Qed.

(** X11: [fetchVideoInfo] returns a value exactly when the executor returned
    a response whose body parses to a value with a truthy [title] and a
    truthy [formats]; that value is then returned as it is, and it is always
    an object.  Nothing else about the body is checked: neither the type of
    the two fields nor any other field. *)
Theorem fetchVideoInfo_returns_exactly url signal net v :
  (snd (fetchVideoInfo url signal net) = Return v <->
   exists r,
     snd (makeApiRequest "/infoVideo" url 3 1000 signal net) = Return (Some r)
     /\ json r = Return v
     /\ truthyOpt (getProp v "title") = true
     /\ truthyOpt (getProp v "formats") = true)
  /\ (snd (fetchVideoInfo url signal net) = Return v ->
      exists fields, v = JObject fields).
Proof.
  assert (Hto : snd (fetchVideoInfo url signal net) = Return v ->
                exists r,
                  snd (makeApiRequest "/infoVideo" url 3 1000 signal net)
                  = Return (Some r)
                  /\ json r = Return v
                  /\ truthyOpt (getProp v "title") = true
                  /\ truthyOpt (getProp v "formats") = true).
  { intros Hret.
    destruct (fetchVideoInfo_returned url signal net v Hret)
      as (r & Hrun & Hjson & _ & Ht & Hf).
    exists r. auto. }
  split; [split; [exact Hto | ] | ].
  - intros (r & Hrun & Hjson & Ht & Hf).
    destruct (truthy_property_of_object v "title" Ht) as (fields & ->).
    unfold fetchVideoInfo, fetchVideoInfoTry.
    destruct (makeApiRequest "/infoVideo" url 3 1000 signal net) as [evs out].
    simpl in Hrun. subst out. rewrite Hjson, Ht, Hf. reflexivity.
  - intros Hret. destruct (Hto Hret) as (r & _ & _ & Ht & _).
    exact (truthy_property_of_object v "title" Ht).
Qed.

Lemma fetchVideoInfo_returns_exactly_witness :
  snd (fetchVideoInfo shortUrl None
         (always (Return (jsonResponse 200
                    (JObject [("title", JBool true);
                              ("formats", JString "none");
                              ("extra", JNull)])))))
  = Return (JObject [("title", JBool true); ("formats", JString "none");
                     ("extra", JNull)]).
Proof.
  apply (fetchVideoInfo_returns_exactly shortUrl None
           (always (Return (jsonResponse 200
                      (JObject [("title", JBool true);
                                ("formats", JString "none");
                                ("extra", JNull)]))))).
  exists (jsonResponse 200
            (JObject [("title", JBool true); ("formats", JString "none");
                      ("extra", JNull)])).
  repeat split.
Defined.

(** X12: when the executor has returned a response and reading its body
    fails, [fetchVideoInfo] rejects with that failure as it is, logs it, and
    asks for nothing again, whatever is left of the attempt budget. *)
Theorem unreadable_body_is_not_retried url signal net r e :
  snd (makeApiRequest "/infoVideo" url 3 1000 signal net) = Return (Some r) ->
  json r = Throw e ->
  instanceofApiError e = false ->
  fetchVideoInfo url signal net
  = (fst (makeApiRequest "/infoVideo" url 3 1000 signal net)
       ++ [EvConsoleError e],
     Throw e).
Proof.
  intros Hrun Hjson Hforeign.
  unfold fetchVideoInfo, fetchVideoInfoTry.
  destruct (makeApiRequest "/infoVideo" url 3 1000 signal net) as [evs out].
  simpl in Hrun. subst out. rewrite Hjson.
  unfold fetchVideoInfoCatch. rewrite Hforeign. reflexivity.
Qed.

Lemma unreadable_body_is_not_retried_witness :
  fetchVideoInfo shortUrl None
    (always (Return {| ok := true; status := 200;
                       json := Throw (Foreign "SyntaxError" "Unexpected token <") |}))
  = (fst (makeApiRequest "/infoVideo" shortUrl 3 1000 None
            (always (Return {| ok := true; status := 200;
                               json := Throw (Foreign "SyntaxError"
                                                "Unexpected token <") |})))
       ++ [EvConsoleError (Foreign "SyntaxError" "Unexpected token <")],
     Throw (Foreign "SyntaxError" "Unexpected token <")).
Proof.
  apply (unreadable_body_is_not_retried shortUrl None
           (always (Return {| ok := true; status := 200;
                              json := Throw (Foreign "SyntaxError"
                                               "Unexpected token <") |}))
           {| ok := true; status := 200;
              json := Throw (Foreign "SyntaxError" "Unexpected token <") |}
           (Foreign "SyntaxError" "Unexpected token <")).
  - reflexivity.
  - reflexivity.
  - reflexivity.
Defined.

Lemma invalid_url_aux url signal net :
  validateYoutubeUrl url
  = Throw (ValidationError "Invalid YouTube URL provided.") ->
  fetchVideoInfo url signal net
  = ([EvConsoleError
        (ValidationError "Invalid YouTube URL provided.")],
     Throw (ValidationError "Invalid YouTube URL provided."))
  /\ downloadVideo url signal net
     = ([], Throw (ValidationError "Invalid YouTube URL provided.")).
Proof.
  intros Hno. unfold downloadVideo, fetchVideoInfo, fetchVideoInfoTry.
  rewrite !(makeApiRequest_invalid _ _ _ _ _ _ _ Hno). split; reflexivity.
Qed.

(** X13: on a URL the validator rejects, both exported functions reject with
    the validator's error before anything else happens: no request, no
    delay, and this also when the signal is already raised, so the caller
    sees the ValidationError and not a cancellation.  [fetchVideoInfo] logs
    the error once. *)
Theorem invalid_url_stops_both_exports url signal net :
  ~ acceptedUrl url ->
  fetchVideoInfo url signal net
  = ([EvConsoleError
        (ValidationError "Invalid YouTube URL provided.")],
     Throw (ValidationError "Invalid YouTube URL provided."))
  /\ downloadVideo url signal net
     = ([], Throw (ValidationError "Invalid YouTube URL provided.")).
Proof.
  intros Hno. apply validateYoutubeUrl_rejects in Hno.
  now apply invalid_url_aux.
Qed.

Lemma invalid_url_stops_both_exports_witness :
  fetchVideoInfo (lit "https://vimeo.com/1") (Some abortedFromStart)
    (always (Return (jsonResponse 200 goodInfo)))
  = ([EvConsoleError
        (ValidationError "Invalid YouTube URL provided.")],
     Throw (ValidationError "Invalid YouTube URL provided."))
  /\ downloadVideo (lit "https://vimeo.com/1") (Some abortedFromStart)
       (always (Return (jsonResponse 200 goodInfo)))
     = ([], Throw (ValidationError "Invalid YouTube URL provided.")).
Proof.
  apply (invalid_url_stops_both_exports (lit "https://vimeo.com/1")
           (Some abortedFromStart) (always (Return (jsonResponse 200 goodInfo)))).
  apply validateYoutubeUrl_rejects. reflexivity.
Defined.

(* ------------------------------------------------------------------------- *)
(** ** The example usage *)

Lemma pump_finished pending :
  pump pending Finished = (map Enqueue pending ++ [Close], Return tt).
Proof.
  induction pending as [ | value rest IH]; simpl; [reflexivity | ].
  now rewrite IH.
Qed.

Lemma pump_broken pending e :
  pump pending (Broken e) = (map Enqueue pending, Throw e).
Proof.
  induction pending as [ | value rest IH]; simpl; [reflexivity | ].
  now rewrite IH.
Qed.

Lemma enqueued_all pending tail :
  enqueued (map Enqueue pending ++ tail) = pending ++ enqueued tail.
Proof.
  induction pending as [ | value rest IH]; simpl; [reflexivity | ].
  now rewrite IH.
Qed.

(** X14: [pump] hands every chunk of the body over to the new stream, in
    order and once.  When the reads end with [done] it closes the stream,
    once and after the last chunk; when a read fails it has enqueued the
    chunks read so far, never closes, and the failure is what its promise
    rejects with. *)
Theorem pump_delivers_every_chunk pending :
  pump pending Finished = (map Enqueue pending ++ [Close], Return tt)
  /\ (forall e, pump pending (Broken e) = (map Enqueue pending, Throw e))
  /\ (forall finish, enqueued (fst (pump pending finish)) = pending).
Proof.
  split; [apply pump_finished | split; [apply pump_broken | ]].
  intros [ | e].
  - rewrite pump_finished. simpl. rewrite enqueued_all. simpl.
    apply app_nil_r.
  - rewrite pump_broken. simpl.
    rewrite <- (app_nil_r (map Enqueue pending)), enqueued_all. simpl.
    apply app_nil_r.
Qed.

(** X15: loading the module runs the chain on the placeholder URL, which the
    validator rejects: whatever the network and the signal, no request is
    sent, nothing is downloaded or saved, and the only effects are the two
    logs of the ValidationError, one in [fetchVideoInfo] and one in the
    final [catch]. *)
Theorem module_load_sends_nothing
    signalInfo netInfo signalDownload netDownload bodyOf :
  moduleLoad signalInfo netInfo signalDownload netDownload bodyOf
  = [Service (EvConsoleError
                (ValidationError "Invalid YouTube URL provided."));
     LogValidationError "Invalid YouTube URL provided."]
  /\ filter isRequest
       (moduleLoad signalInfo netInfo signalDownload netDownload bodyOf) = [].
Proof.
  assert (Hrun : moduleLoad signalInfo netInfo signalDownload netDownload bodyOf
                 = [Service (EvConsoleError
                      (ValidationError "Invalid YouTube URL provided."));
                    LogValidationError "Invalid YouTube URL provided."]).
  { unfold moduleLoad, usage.
    destruct (invalid_url_aux (lit "your_youtube_url") signalInfo netInfo)
      as [-> _]; [reflexivity | reflexivity]. }
  rewrite Hrun. split; reflexivity.
Qed.

Lemma executor_returns_ok endpoint url retries retryDelay signal net r :
  snd (makeApiRequest endpoint url retries retryDelay signal net)
  = Return (Some r) ->
  ok r = true.
Proof.
  intros Hret.
  destruct (validateYoutubeUrl url) as [[] | e] eqn:Hv;
    [ | rewrite (makeApiRequest_invalid _ _ _ _ _ _ e Hv) in Hret; discriminate].
  rewrite makeApiRequest_loop in Hret by assumption.
  destruct (Z_lt_le_dec retries 1) as [Hlt | Hge];
    [rewrite loop_done in Hret by lia; discriminate | ].
  destruct (loop_outcome endpoint url retries retryDelay signal net
              (Z.to_nat (retries - 1 + 1)) 1 eq_refl Hge)
    as [(k & r' & _ & _ & Hok & Hres) | (e & Hthrow)]; congruence.
Qed.

(** When the steps after the download give a blob. *)
Lemma rewrap_returns bodyOf value evs blob :
  rewrap bodyOf value = (evs, Return blob) ->
  exists r body,
    value = Some r /\ ok r = true /\ bodyOf r = Some body
    /\ finish body = Finished
    /\ evs = map Stream (map Enqueue (chunks body) ++ [Close])
    /\ blob = List.concat (chunks body).
Proof.
  unfold rewrap. destruct value as [r | ]; [ | discriminate].
  destruct (ok r) eqn:Hok; simpl; [ | discriminate].
  destruct (bodyOf r) as [body | ] eqn:Hbody; [ | discriminate].
  destruct (finish body) as [ | e] eqn:Hfinish.
  - rewrite pump_finished. intros [= <- <-].
    exists r, body. rewrite enqueued_all. simpl. rewrite app_nil_r. auto 10.
  - rewrite pump_broken. discriminate.
Qed.

Lemma rewrap_success bodyOf r body :
  ok r = true -> bodyOf r = Some body -> finish body = Finished ->
  rewrap bodyOf (Some r)
  = (map Stream (map Enqueue (chunks body) ++ [Close]),
     Return (List.concat (chunks body))).
Proof.
  intros Hok Hbody Hfinish. unfold rewrap. rewrite Hok, Hbody, Hfinish. simpl.
  rewrite pump_finished, enqueued_all. simpl. now rewrite app_nil_r.
Qed.

(** The steps after the download touch neither the network nor the page. *)
Lemma rewrap_events bodyOf value :
  exists evs, fst (rewrap bodyOf value) = map Stream evs.
Proof.
  unfold rewrap. destruct value as [r | ]; [ | now exists []].
  destruct (ok r); simpl; [ | now exists []].
  destruct (bodyOf r) as [body | ]; [ | now exists []].
  destruct (pump (chunks body) (finish body)) as [evs settled].
  now exists evs.
Qed.

Lemma onRejected_one e :
  exists ev, onRejected e = [ev] /\ isHandlerLog ev = true.
Proof.
  unfold onRejected.
  destruct (String.eqb (errorName e) "AbortError"); [eauto | ].
  destruct (instanceofValidationError e); eauto.
Qed.

Ltac not_there H :=
  repeat (apply in_app_or in H as [H | H]);
  try (apply in_map_iff in H as (? & ? & _); discriminate);
  try (simpl in H; intuition discriminate).

Lemma created_not_in_rejected blob e : ~ In (CreateObjectURL blob) (onRejected e).
Proof.
  destruct (onRejected_one e) as (ev & -> & Hev).
  intros [-> | []]. discriminate.
Qed.

(** X16: the chain hands a file to the browser exactly when every step
    before succeeded: the metadata came back valid, the download returned a
    response, that response has a body and the body was read to its end.
    The blob is then the chunks of the body joined in order, the name is
    always [video.mp4], and the object URL is revoked after the click, as
    the last effect of the chain. *)
Theorem file_is_saved_exactly_when
    url signalInfo netInfo signalDownload netDownload bodyOf blob :
  (In (CreateObjectURL blob)
      (usage url signalInfo netInfo signalDownload netDownload bodyOf) <->
   exists info r body,
     snd (fetchVideoInfo url signalInfo netInfo) = Return info
     /\ snd (downloadVideo url signalDownload netDownload) = Return (Some r)
     /\ bodyOf r = Some body
     /\ finish body = Finished
     /\ blob = List.concat (chunks body))
  /\ (forall info r body,
        snd (fetchVideoInfo url signalInfo netInfo) = Return info ->
        snd (downloadVideo url signalDownload netDownload) = Return (Some r) ->
        bodyOf r = Some body ->
        finish body = Finished ->
        usage url signalInfo netInfo signalDownload netDownload bodyOf
        = map Service (fst (fetchVideoInfo url signalInfo netInfo))
          ++ [LogVideoInfo info]
          ++ map Service (fst (downloadVideo url signalDownload netDownload))
          ++ map Stream (map Enqueue (chunks body) ++ [Close])
          ++ [CreateObjectURL (List.concat (chunks body)); CreateAnchor; SetHref;
              SetDownload "video.mp4"; AppendAnchor; ClickAnchor;
              RevokeObjectURL]).
Proof.
  assert (Hsaved : forall info r body,
             snd (fetchVideoInfo url signalInfo netInfo) = Return info ->
             snd (downloadVideo url signalDownload netDownload) = Return (Some r) ->
             bodyOf r = Some body ->
             finish body = Finished ->
             usage url signalInfo netInfo signalDownload netDownload bodyOf
             = map Service (fst (fetchVideoInfo url signalInfo netInfo))
               ++ [LogVideoInfo info]
               ++ map Service (fst (downloadVideo url signalDownload netDownload))
               ++ map Stream (map Enqueue (chunks body) ++ [Close])
               ++ saveBlob (List.concat (chunks body))).
  { intros info r body Hinfo Hdown Hbody Hfinish.
    pose proof (executor_returns_ok _ _ _ _ _ _ r Hdown) as Hok.
    unfold usage.
    destruct (fetchVideoInfo url signalInfo netInfo) as [evsI outI].
    destruct (downloadVideo url signalDownload netDownload) as [evsD outD].
    simpl in Hinfo, Hdown. subst outI outD.
    rewrite (rewrap_success bodyOf r body Hok Hbody Hfinish).
    simpl fst. now rewrite <- !app_assoc. }
  split; [split | exact Hsaved].
  - unfold usage.
    destruct (fetchVideoInfo url signalInfo netInfo) as [evsI [info | e]];
      [ | intros H; not_there H; now apply created_not_in_rejected in H].
    destruct (downloadVideo url signalDownload netDownload) as [evsD [value | e]];
      [ | intros H; not_there H; now apply created_not_in_rejected in H].
    destruct (rewrap bodyOf value) as [evsS [made | e]] eqn:Hwrap.
    + destruct (rewrap_returns bodyOf value evsS made Hwrap)
        as (r & body & -> & _ & Hbody & Hfinish & -> & ->).
      intros H. exists info, r, body. repeat split; auto.
      not_there H. destruct H as [[= <-] | H]; [reflexivity | ].
      simpl in H. intuition discriminate.
    + destruct (rewrap_events bodyOf value) as (evs & Hevs).
      rewrite Hwrap in Hevs. simpl in Hevs. subst evsS.
      intros H. not_there H. now apply created_not_in_rejected in H.
  - intros (info & r & body & Hinfo & Hdown & Hbody & Hfinish & ->).
    rewrite (Hsaved info r body Hinfo Hdown Hbody Hfinish).
    repeat (apply in_or_app; right). now left.
Qed.

Lemma file_is_saved_exactly_when_witness :
  In (CreateObjectURL [1; 2; 3]%N)
     (usage shortUrl None (always (Return (jsonResponse 200 goodInfo)))
        None (always (Return (jsonResponse 200 JNull)))
        (fun _ => Some twoChunks)).
Proof.
  apply (file_is_saved_exactly_when shortUrl None
           (always (Return (jsonResponse 200 goodInfo)))
           None (always (Return (jsonResponse 200 JNull)))
           (fun _ => Some twoChunks) [1; 2; 3]%N).
  exists goodInfo, (jsonResponse 200 JNull), twoChunks.
  repeat split.
Defined.

Lemma handler_free_service evs : filter isHandlerLog (map Service evs) = [].
Proof. induction evs as [ | ev evs IH]; simpl; auto. Qed.

Lemma handler_free_stream evs : filter isHandlerLog (map Stream evs) = [].
Proof. induction evs as [ | ev evs IH]; simpl; auto. Qed.

Lemma handler_keeps_rejected e : filter isHandlerLog (onRejected e) = onRejected e.
Proof.
  destruct (onRejected_one e) as (ev & -> & Hev). simpl. now rewrite Hev.
Qed.

Lemma click_not_in_rejected e : ~ In ClickAnchor (onRejected e).
Proof.
  destruct (onRejected_one e) as (ev & -> & Hev).
  intros [-> | []]. discriminate.
Qed.

(** X17: no run of the chain fails silently and none reports twice: either
    the file is handed to the browser and the final [catch] logs nothing, or
    nothing is clicked and the final [catch] logs exactly one line, chosen by
    the error that stopped the chain. *)
Theorem every_failure_is_reported_once
    url signalInfo netInfo signalDownload netDownload bodyOf :
  (In ClickAnchor (usage url signalInfo netInfo signalDownload netDownload bodyOf)
   /\ filter isHandlerLog
        (usage url signalInfo netInfo signalDownload netDownload bodyOf) = [])
  \/ (~ In ClickAnchor
          (usage url signalInfo netInfo signalDownload netDownload bodyOf)
      /\ exists e ev,
           filter isHandlerLog
             (usage url signalInfo netInfo signalDownload netDownload bodyOf)
           = [ev]
           /\ onRejected e = [ev]).
Proof.
  unfold usage.
  destruct (fetchVideoInfo url signalInfo netInfo) as [evsI [info | e]].
  2:{ right. split.
      - intros H. not_there H. now apply click_not_in_rejected in H.
      - destruct (onRejected_one e) as (ev & Hev & _). exists e, ev.
        rewrite filter_app, handler_free_service, handler_keeps_rejected.
        auto. }
  destruct (downloadVideo url signalDownload netDownload) as [evsD [value | e]].
  2:{ right. split.
      - intros H. not_there H. now apply click_not_in_rejected in H.
      - destruct (onRejected_one e) as (ev & Hev & _). exists e, ev.
        rewrite !filter_app, !handler_free_service, handler_keeps_rejected.
        auto. }
  destruct (rewrap_events bodyOf value) as (evs & Hevs).
  destruct (rewrap bodyOf value) as [evsS [made | e]].
  - left. simpl in Hevs. subst evsS. split.
    + repeat (apply in_or_app; right). simpl. auto 10.
    + rewrite !filter_app, !handler_free_service, handler_free_stream.
      reflexivity.
  - right. simpl in Hevs. subst evsS. split.
    + intros H. not_there H. now apply click_not_in_rejected in H.
    + destruct (onRejected_one e) as (ev & Hev & _). exists e, ev.
      rewrite !filter_app, !handler_free_service, handler_free_stream,
        handler_keeps_rejected.
      auto.
Qed.

Lemma requests_of_service evs :
  List.length (filter isRequest (map Service evs)) = networkCalls evs.
Proof.
  unfold networkCalls. induction evs as [ | ev evs IH]; simpl; [reflexivity | ].
  destruct ev; simpl; auto.
Qed.

Lemma requests_of_stream evs : filter isRequest (map Stream evs) = [].
Proof. induction evs as [ | ev evs IH]; simpl; auto. Qed.

Lemma requests_of_rejected e : filter isRequest (onRejected e) = [].
Proof.
  destruct (onRejected_one e) as (ev & -> & Hev).
  destruct ev; try discriminate; reflexivity.
Qed.

Lemma export_calls url signal net :
  (networkCalls (fst (fetchVideoInfo url signal net)) <= 3)%nat
  /\ (networkCalls (fst (downloadVideo url signal net)) <= 3)%nat.
Proof.
  assert (Hcalls : forall endpoint,
             (networkCalls (fst (makeApiRequest endpoint url 3 1000 signal net))
              <= 3)%nat).
  { intros endpoint. unfold makeApiRequest.
    destruct (validateYoutubeUrl url); [ | cbn; lia].
    apply (retryLoop_calls endpoint url 3 1000 signal net 3 1). }
  split; [ | apply Hcalls].
  pose proof (fetchVideoInfoTry_events url signal net) as Hevs.
  specialize (Hcalls "/infoVideo"). unfold fetchVideoInfo.
  destruct (fetchVideoInfoTry url signal net) as [evs [v | e]];
    simpl in Hevs; subst evs; [exact Hcalls | ].
  unfold fetchVideoInfoCatch. simpl. rewrite networkCalls_app.
  change (networkCalls [EvConsoleError e]) with 0%nat. lia.
Qed.

(** X18: one run of the chain sends at most six requests, three for the
    metadata and three for the download, and the download is asked for only
    once the metadata has come back: when [fetchVideoInfo] rejects, the
    requests of the chain are those of [fetchVideoInfo] alone and the chain
    ends with the log of the final [catch]. *)
Theorem chain_requests
    url signalInfo netInfo signalDownload netDownload bodyOf :
  (List.length
     (filter isRequest
        (usage url signalInfo netInfo signalDownload netDownload bodyOf))
   <= 6)%nat
  /\ (forall e,
        snd (fetchVideoInfo url signalInfo netInfo) = Throw e ->
        usage url signalInfo netInfo signalDownload netDownload bodyOf
        = map Service (fst (fetchVideoInfo url signalInfo netInfo))
          ++ onRejected e
        /\ List.length
             (filter isRequest
                (usage url signalInfo netInfo signalDownload netDownload bodyOf))
           = networkCalls (fst (fetchVideoInfo url signalInfo netInfo))).
Proof.
  destruct (export_calls url signalInfo netInfo) as [HI _].
  destruct (export_calls url signalDownload netDownload) as [_ HD].
  unfold usage.
  destruct (fetchVideoInfo url signalInfo netInfo) as [evsI [info | e]];
    simpl fst in *; simpl snd.
  - split; [ | intros e He; discriminate].
    destruct (downloadVideo url signalDownload netDownload) as [evsD [value | e]];
      simpl fst in *.
    + destruct (rewrap_events bodyOf value) as (evs & Hevs).
      destruct (rewrap bodyOf value) as [evsS [made | e]];
        simpl in Hevs; subst evsS;
        rewrite !filter_app, !length_app, !requests_of_service,
          ?requests_of_stream, ?requests_of_rejected; simpl; lia.
    + rewrite !filter_app, !length_app, !requests_of_service,
        ?requests_of_rejected; simpl; lia.
  - assert (Hcount : List.length
                       (filter isRequest (map Service evsI ++ onRejected e))
                     = networkCalls evsI).
    { rewrite filter_app, length_app, requests_of_service, requests_of_rejected.
      simpl. lia. }
    split; [lia | ].
    intros e' [= <-]. split; [reflexivity | exact Hcount].
Qed.

Lemma chain_requests_witness :
  usage shortUrl None (always (Return notFound))
    None (always (Return (jsonResponse 200 JNull))) (fun _ => Some twoChunks)
  = map Service (fst (fetchVideoInfo shortUrl None (always (Return notFound))))
    ++ onRejected (ValidationError "Video not found or invalid URL.")
  /\ List.length
       (filter isRequest
          (usage shortUrl None (always (Return notFound))
             None (always (Return (jsonResponse 200 JNull)))
             (fun _ => Some twoChunks)))
     = networkCalls (fst (fetchVideoInfo shortUrl None (always (Return notFound)))).
Proof.
  destruct (chain_requests shortUrl None (always (Return notFound))
              None (always (Return (jsonResponse 200 JNull)))
              (fun _ => Some twoChunks)) as [_ Hrejected].
  apply (Hrejected (ValidationError "Video not found or invalid URL.")).
  reflexivity.
Defined.

(** X19: the final [catch] reports a failed status by the step it came from:
    a 404 or 400 of the metadata endpoint ends the chain with the
    validation line and the text of the remapping, while an ApiError of the
    download endpoint, its 404 included, ends it with the generic line and
    the error itself. *)
Theorem api_errors_are_reported_by_step
    url signalInfo netInfo signalDownload netDownload bodyOf :
  (forall code message,
      snd (makeApiRequest "/infoVideo" url 3 1000 signalInfo netInfo)
      = Throw (ApiError code message) ->
      code = 404 \/ code = 400 ->
      usage url signalInfo netInfo signalDownload netDownload bodyOf
      = map Service (fst (fetchVideoInfo url signalInfo netInfo))
        ++ [LogValidationError "Video not found or invalid URL."])
  /\ (forall info code message,
        snd (fetchVideoInfo url signalInfo netInfo) = Return info ->
        snd (downloadVideo url signalDownload netDownload)
        = Throw (ApiError code message) ->
        usage url signalInfo netInfo signalDownload netDownload bodyOf
        = map Service (fst (fetchVideoInfo url signalInfo netInfo))
          ++ [LogVideoInfo info]
          ++ map Service (fst (downloadVideo url signalDownload netDownload))
          ++ [LogError (ApiError code message)]).
Proof.
  split.
  - intros code message Hrun Hcode.
    assert (Hseen : snd (fetchVideoInfo url signalInfo netInfo)
                    = Throw (ValidationError
                               "Video not found or invalid URL.")).
    { rewrite (fetchVideoInfo_catch url signalInfo netInfo
                 (ApiError code message))
        by now apply fetchVideoInfoTry_rejected.
      unfold fetchVideoInfoCatch, statusIs. simpl.
      destruct Hcode as [-> | ->]; reflexivity. }
    unfold usage.
    destruct (fetchVideoInfo url signalInfo netInfo) as [evsI outI].
    simpl in Hseen. subst outI. reflexivity.
  - intros info code message Hinfo Hdown. unfold usage.
    destruct (fetchVideoInfo url signalInfo netInfo) as [evsI outI].
    destruct (downloadVideo url signalDownload netDownload) as [evsD outD].
    simpl in Hinfo, Hdown. subst outI outD. simpl fst.
    now rewrite <- !app_assoc.
Qed.

Lemma api_errors_are_reported_by_step_witness :
  usage shortUrl None (always (Return notFound)) None
    (always (Return notFound)) (fun _ => Some twoChunks)
  = map Service (fst (fetchVideoInfo shortUrl None (always (Return notFound))))
    ++ [LogValidationError "Video not found or invalid URL."]
  /\ usage shortUrl None (always (Return (jsonResponse 200 goodInfo))) None
       (always (Return notFound)) (fun _ => Some twoChunks)
     = map Service
         (fst (fetchVideoInfo shortUrl None
                 (always (Return (jsonResponse 200 goodInfo)))))
       ++ [LogVideoInfo goodInfo]
       ++ map Service (fst (downloadVideo shortUrl None (always (Return notFound))))
       ++ [LogError (ApiError 404 "not found")].
Proof.
  split.
  - destruct (api_errors_are_reported_by_step shortUrl None
                (always (Return notFound)) None (always (Return notFound))
                (fun _ => Some twoChunks)) as [Hinfo _].
    apply (Hinfo 404 "not found"); [reflexivity | now left].
  - destruct (api_errors_are_reported_by_step shortUrl None
                (always (Return (jsonResponse 200 goodInfo))) None
                (always (Return notFound)) (fun _ => Some twoChunks))
      as [_ Hdownload].
    apply (Hdownload goodInfo 404 "not found"); reflexivity.
Defined.

(** X20: when the message field of the body of a failed response is a
    string, is missing or is falsy, the ApiError the attempt builds has the
    status of the response and a message that is not empty. *)
Theorem api_error_message_is_never_empty endpoint url signal net k r :
  snd (fetch net signal k (requestFor endpoint url)) = Return r ->
  ok r = false ->
  (forall field, messageField r = Some field ->
                 truthy field = false \/ exists text, field = JString text) ->
  exists message,
    snd (tryAttempt endpoint url signal net k) = Throw (ApiError (status r) message)
    /\ message <> "".
Proof.
  intros Hf Hok Hfield. rewrite (tryAttempt_failure _ _ _ _ _ r Hf Hok).
  simpl snd. destruct (messageField r) as [field | ] eqn:Hm; simpl.
  - destruct (Hfield field eq_refl) as [Hfalsy | (text & ->)].
    + rewrite Hfalsy. simpl. eexists. split; [reflexivity | discriminate].
    + simpl. destruct text as [ | c rest]; simpl.
      * eexists. split; [reflexivity | discriminate].
      * eexists. split; [reflexivity | discriminate].
  - eexists. split; [reflexivity | discriminate].
Qed.

Lemma api_error_message_is_never_empty_witness :
  exists message,
    snd (tryAttempt "/download" shortUrl None
           (always (Return emptyMessageResponse)) 0)
    = Throw (ApiError (status emptyMessageResponse) message)
    /\ message <> "".
Proof.
  apply (api_error_message_is_never_empty "/download" shortUrl None
           (always (Return emptyMessageResponse)) 0%nat emptyMessageResponse).
  - reflexivity.
  - reflexivity.
  - intros field [= <-]. left. reflexivity.
Defined.

(** X21: a failure with an ApiError is retried whatever its status, the 404
    and the 400 that [fetchVideoInfo] then reports as a validation failure
    included: when all three attempts end with an ApiError,
    [fetchVideoInfo] has sent three requests and waited two delays before
    it rejects. *)
Theorem failed_statuses_cost_three_requests url signal net :
  validateYoutubeUrl url = Return tt ->
  (forall j, 1 <= j <= 3 ->
     exists code message,
       attemptOutcome "/infoVideo" url signal net j
       = Throw (ApiError code message)) ->
  networkCalls (fst (fetchVideoInfo url signal net)) = 3%nat
  /\ sleeps (fst (fetchVideoInfo url signal net)) = 2%nat
  /\ exists e, snd (fetchVideoInfo url signal net) = Throw e.
Proof.
  intros Hv Hall.
  destruct (loop_reaches "/infoVideo" url 3 1000 signal net 3)
    as (pre & Hrun & Hc & Hs); [lia | | ].
  { intros j Hj. destruct (Hall j ltac:(lia)) as (code & message & Hout).
    exists (ApiError code message). split; [exact Hout | reflexivity]. }
  destruct (Hall 3 ltac:(lia)) as (code & message & Hout).
  unfold attemptOutcome in Hout.
  rewrite (loop_throw "/infoVideo" url 3 1000 signal net 3
             (ApiError code message)) in Hrun by (auto; lia).
  rewrite (tryAttempt_retryable_sent _ _ _ _ _ _ Hout eq_refl) in Hrun.
  pose proof (fetchVideoInfoTry_events url signal net) as Hevs.
  rewrite makeApiRequest_loop, Hrun in Hevs by assumption. simpl in Hevs.
  assert (Hthrown : snd (fetchVideoInfoTry url signal net)
                    = Throw (ApiError code message)).
  { apply fetchVideoInfoTry_rejected.
    rewrite makeApiRequest_loop, Hrun by assumption. reflexivity. }
  unfold fetchVideoInfo.
  destruct (fetchVideoInfoTry url signal net) as [evs out].
  simpl in Hevs, Hthrown. subst evs out.
  destruct (fetchVideoInfoCatch_throws (ApiError code message)) as (e' & He').
  unfold fetchVideoInfoCatch in *. simpl in *.
  rewrite !networkCalls_app, !sleeps_app.
  unfold networkCalls, sleeps in *. simpl.
  repeat split; [lia | lia | eauto].
Qed.

Lemma failed_statuses_cost_three_requests_witness :
  networkCalls (fst (fetchVideoInfo shortUrl None (always (Return notFound))))
  = 3%nat
  /\ sleeps (fst (fetchVideoInfo shortUrl None (always (Return notFound))))
     = 2%nat
  /\ exists e,
       snd (fetchVideoInfo shortUrl None (always (Return notFound))) = Throw e.
Proof.
  apply (failed_statuses_cost_three_requests shortUrl None
           (always (Return notFound))).
  - reflexivity.
  - intros j Hj. exists 404, "not found". reflexivity.
Defined.

(** The message of the error is the string of the field: a list is joined,
    an empty list gives the empty string. *)
Example scenario_messages_that_are_not_strings :
  attemptOutcome "/download" shortUrl None (always (Return listMessage)) 1
  = Throw (ApiError 500 "1.5,,true")
  /\ attemptOutcome "/download" shortUrl None
       (always (Return emptyArrayMessage)) 1
     = Throw (ApiError 500 "").
Proof. split; reflexivity. Qed.

(** A message that has no string stops the run at once: one request, no
    delay, and the TypeError of the conversion for the caller. *)
Example scenario_message_without_a_string :
  makeApiRequest "/download" shortUrl 3 1000 None
    (always (Return shadowedToString))
  = ([EvFetch (requestFor "/download" shortUrl)], Throw cannotConvert).
Proof. reflexivity. Qed.

Example numbers_as_strings :
  numberToString (S754_finite false 1 0) = "1"
  /\ numberToString (S754_finite false 3602879701896397 (-55)) = "0.1"
  /\ numberToString (S754_finite true 5 (-2)) = "-1.25"
  /\ numberToString (S754_finite false 4768371582031250 21) = "1e+22"
  /\ numberToString (S754_finite false 1 (-1074)) = "5e-324".
Proof. vm_compute. repeat split. Qed.

(** An abort while the body is streamed: the chunks read so far were
    enqueued, the new stream is never closed, nothing is saved, and the
    final [catch] reports a cancellation. *)
Example scenario_aborted_while_streaming :
  usage shortUrl None (always (Return (jsonResponse 200 goodInfo)))
    None (always (Return (jsonResponse 200 JNull))) (fun _ => Some cutOffBody)
  = [Service (EvFetch (requestFor "/infoVideo" shortUrl));
     LogVideoInfo goodInfo;
     Service (EvFetch (requestFor "/download" shortUrl));
     Stream (Enqueue [1; 2]%N);
     LogCancelled].
Proof. reflexivity. Qed.
